(** * The PMTiles viewer server: token cache and range-forwarding proxy

    A shallow embedding of the Express server of the PMTiles viewer
    (the token manager [fetchDatabricksToken] / [getValidAccessToken], the
    [GET /proxy/pmtiles] and [OPTIONS /proxy/pmtiles] handlers and the
    [GET /api/config] handler), followed by the properties of its
    specification.

    Conventions of the embedding.
    - A JavaScript string is represented by the bytes of its UTF-8 encoding
      (Rocq's [string]); strings with unpaired surrogates are not
      represented.
    - A value that may be [undefined], [null] or a string (an environment
      variable, a query parameter, a request header, the cached token) is a
      [JsVal]; [truthy] is JavaScript's truthiness on it.  A query
      parameter given several times (an array for express) is not
      represented.
    - A [Date] is its number of milliseconds since the epoch, a [Z]; the
      [expires_in] of a token response is an integer when it is there,
      and times stay within the range of [Date].
    - The outside world (clock, identity endpoint, remote store) is an
      oracle [Env]; everything the server does to it is appended to the
      [trace] of the [World].  Every call that the server awaits settles:
      it resolves or rejects, and a body is read to its end or to an
      error.  A call that never settles, after which the handler that
      awaits it never answers, is not represented.
    - Of an upstream request the trace keeps the URL and the [headers]
      option that the handler gives to [fetch]; what [fetch] adds to the
      request on its own is not represented.
    - Express is library code: [res.json] is modelled with what it does
      to a response, the 304 that it sends instead of the body to a
      conditional request included; the comparison of entity tags
      behind that is an oracle of [Env].  Headers that express derives
      from a body (Content-Length, ETag) are left out of a response.
    - An asynchronous function is a [Task]: a state transformer on the
      [World] that returns a value or throws.  Handlers run one at a
      time; the two globals of the token cache are written together, at
      lines 42-45, with no [await] in between. *)

From Stdlib Require Import ZArith String Ascii List Lia Bool.
From stdpp Require Import base tactics option list gmap strings.

Local Open Scope Z_scope.
Set Warnings "-register-all".

(** ** JavaScript values and strings *)

Module Js.

Inductive JsVal : Type :=
  | JsUndefined
  | JsNull
  | JsString (s : string).

#[global] Instance JsVal_eq_dec : EqDecision JsVal.
Proof. solve_decision. Defined.

(** [!!v] of JavaScript: [undefined], [null] and the empty string are falsy. *)
Definition truthy (v : JsVal) : bool :=
  match v with
  | JsString s => negb (String.eqb s EmptyString)
  | JsUndefined | JsNull => false
  end.

(** [`${v}`]: the string a value contributes to a template literal. *)
Definition template (v : JsVal) : string :=
  match v with
  | JsUndefined => "undefined"
  | JsNull => "null"
  | JsString s => s
  end.

(** [hay.includes(needle)]. *)
Fixpoint includes (needle hay : string) : bool :=
  String.prefix needle hay ||
  match hay with
  | EmptyString => false
  | String _ rest => includes needle rest
  end.

(** *** Percent-encoding: [encodeURIComponent] *)

Definition byte_of (c : ascii) : Z := Z.of_nat (nat_of_ascii c).
Definition char_of (b : Z) : ascii := ascii_of_nat (Z.to_nat b).

Definition is_alpha (b : Z) : bool :=
  (65 <=? b) && (b <=? 90) || (97 <=? b) && (b <=? 122).
Definition is_digit (b : Z) : bool := (48 <=? b) && (b <=? 57).

(** The characters [encodeURIComponent] leaves alone:
    letters, digits and [- _ . ! ~ * ' ( )]. *)
Definition uri_unreserved (c : ascii) : bool :=
  let b := byte_of c in
  is_alpha b || is_digit b ||
  existsb (Z.eqb b) [45; 95; 46; 33; 126; 42; 39; 40; 41].

Definition hex_digit (n : Z) : ascii :=
  if n <? 10 then char_of (48 + n) else char_of (55 + n).

Definition percent_escape (c : ascii) : string :=
  let b := byte_of c in
  String "%" (String (hex_digit (Z.shiftr b 4))
             (String (hex_digit (Z.land b 15)) EmptyString)).

Fixpoint encodeURIComponent (s : string) : string :=
  match s with
  | EmptyString => EmptyString
  | String c rest =>
      (if uri_unreserved c then String c EmptyString else percent_escape c)
      +:+ encodeURIComponent rest
  end.

(** *** Percent-decoding: [decodeURIComponent] *)

Definition hex_value (c : ascii) : option Z :=
  let b := byte_of c in
  if is_digit b then Some (b - 48)
  else if (65 <=? b) && (b <=? 70) then Some (b - 55)
  else if (97 <=? b) && (b <=? 102) then Some (b - 87)
  else None.

Definition hex_octet (h l : ascii) : option Z :=
  match hex_value h, hex_value l with
  | Some x, Some y => Some (16 * x + y)
  | _, _ => None
  end.

(** Number of leading one bits of an octet; 5 stands for five or more. *)
Definition leading_ones (b : Z) : nat :=
  if b <? 128 then 0%nat
  else if b <? 192 then 1%nat
  else if b <? 224 then 2%nat
  else if b <? 240 then 3%nat
  else if b <? 248 then 4%nat
  else 5%nat.

(** Whether a list of octets is the UTF-8 encoding of one code point:
    continuation bytes in range, no overlong form, no surrogate, at
    most U+10FFFF. *)
Definition is_cont (b : Z) : bool := (128 <=? b) && (b <=? 191).

Definition utf8_code_point (octets : list Z) : bool :=
  match octets with
  | [a; b] => (194 <=? a) && (a <=? 223) && is_cont b
  | [a; b; c] =>
      (224 <=? a) && (a <=? 239) && is_cont b && is_cont c &&
      (if a =? 224 then 160 <=? b else true) &&
      (if a =? 237 then b <=? 159 else true)
  | [a; b; c; d] =>
      (240 <=? a) && (a <=? 244) && is_cont b && is_cont c && is_cont d &&
      (if a =? 240 then 144 <=? b else true) &&
      (if a =? 244 then b <=? 143 else true)
  | _ => false
  end.

Definition string_of_octets (octets : list Z) : string :=
  fold_right (fun b acc => String (char_of b) acc) EmptyString octets.

(** The decoding loop.  [pending] holds the octets of a multi-byte
    sequence read so far and [need] how many more escapes it wants.
    [None] is the [URIError] of JavaScript. *)
Fixpoint decode_from (pending : list Z) (need : nat) (s : string)
  : option string :=
  match need with
  | O =>
      match s with
      | EmptyString => Some EmptyString
      | String "%" (String h (String l rest)) =>
          match hex_octet h l with
          | None => None
          | Some b =>
              match leading_ones b with
              | 0%nat => option_map (String (char_of b)) (decode_from [] 0 rest)
              | 2%nat => decode_from [b] 1 rest
              | 3%nat => decode_from [b] 2 rest
              | 4%nat => decode_from [b] 3 rest
              | _ => None
              end
          end
      | String "%" _ => None
      | String c rest => option_map (String c) (decode_from [] 0 rest)
      end
  | S need' =>
      match s with
      | String "%" (String h (String l rest)) =>
          match hex_octet h l with
          | None => None
          | Some b =>
              let octets := pending ++ [b] in
              match need' with
              | O =>
                  if utf8_code_point octets
                  then option_map (String.append (string_of_octets octets))
                                  (decode_from [] 0 rest)
                  else None
              | S _ => decode_from octets need' rest
              end
          end
      | _ => None
      end
  end.

Definition decodeURIComponent (s : string) : option string :=
  decode_from [] 0 s.

(** *** Base64, for the Basic credentials *)

Definition base64_char (n : Z) : ascii :=
  if n <? 26 then char_of (65 + n)
  else if n <? 52 then char_of (71 + n)
  else if n <? 62 then char_of (n - 4)
  else if n =? 62 then "+"%char
  else "/"%char.

Fixpoint base64_octets (bs : list Z) : string :=
  match bs with
  | [] => EmptyString
  | [a] =>
      String (base64_char (Z.shiftr a 2))
     (String (base64_char (Z.shiftl (Z.land a 3) 4)) "==")
  | [a; b] =>
      String (base64_char (Z.shiftr a 2))
     (String (base64_char (Z.lor (Z.shiftl (Z.land a 3) 4) (Z.shiftr b 4)))
     (String (base64_char (Z.shiftl (Z.land b 15) 2)) "="))
  | a :: b :: c :: rest =>
      String (base64_char (Z.shiftr a 2))
     (String (base64_char (Z.lor (Z.shiftl (Z.land a 3) 4) (Z.shiftr b 4)))
     (String (base64_char (Z.lor (Z.shiftl (Z.land b 15) 2) (Z.shiftr c 6)))
     (String (base64_char (Z.land c 63)) (base64_octets rest))))
  end.

Definition octets_of_string (s : string) : list Z :=
  map byte_of (list_ascii_of_string s).

(** [Buffer.from(s).toString('base64')]. *)
Definition base64 (s : string) : string := base64_octets (octets_of_string s).

End Js.
Export Js.

(** ** The world the server runs in *)

Module Server.

(** *** Process configuration (lines 9-11) *)

Record Config := {
  DATABRICKS_CLIENT_ID : JsVal;
  DATABRICKS_CLIENT_SECRET : JsVal;
  DATABRICKS_HOST : JsVal
}.

(** *** The identity endpoint *)

(** The JSON object of a token response.  [access_token] is a string when
    the endpoint sends one and [JsUndefined] when the field is missing;
    [expires_in] is a number of seconds, [None] when missing. *)
Record TokenData := {
  access_token : JsVal;
  expires_in : option Z
}.

(** What a POST to the identity endpoint comes back with: no response at
    all, or a status and a body ([None] is the JSON body [null]). *)
Inductive TokenReply :=
  | NoResponse
  | HttpReply (status : Z) (data : option TokenData).

(** *** The remote store *)

(** A response body as the reader delivers it: the chunks, then either
    [done] or (when [broken]) a read error. *)
Record UpstreamBody := {
  chunks : list string;
  broken : bool
}.

(** A response of [fetch].  Header names are lower-case, as the [Headers]
    object keeps them; [up_body] is [None] for a response without body. *)
Record UpstreamResponse := {
  up_status : Z;
  up_headers : gmap string string;
  up_body : option UpstreamBody
}.

Inductive FetchOutcome :=
  | FetchRejected
  | FetchResolved (r : UpstreamResponse).

(** *** Events and errors *)

Inductive Severity := Log | Error.

(** What the process did to the outside, in order.  A console line keeps
    its fixed first argument only; a network call is recorded with what
    came back.  The [headers] of an upstream GET are the [headers] option
    that the handler gives to [fetch]; the headers that [fetch] adds by
    itself (host, connection, accept and the like) are not recorded. *)
Inductive Event :=
  | Console (sev : Severity) (text : string)
  | TokenPost (url authorization body : string) (reply : TokenReply)
  | UpstreamGet (url : string) (headers : gmap string string) (outcome : FetchOutcome).

Inductive JsError :=
  | AxiosError (status : option Z)
  | TypeError
  | FetchError
  | HttpError (message : string).

(** *** The response object of express *)

Inductive Json :=
  | JNull
  | JNumber (n : Z)
  | JStr (s : string)
  | JArray (items : list Json)
  | JObject (fields : list (string * Json)).

Inductive Payload :=
  | NoPayload
  | JsonPayload (j : Json)
  | TextPayload (s : string)
  | StreamPayload (written : list string).

(** [statusCode] is the status the client receives: once the head has
    been sent ([headersSent]) later calls of [res.status] do not reach
    the client.  Headers that express derives from a body (Content-Length,
    ETag) are left out. *)
Record Res := {
  statusCode : Z;
  resHeaders : gmap string string;
  headersSent : bool;
  payload : Payload;
  ended : bool
}.

Definition fresh_res : Res :=
  {| statusCode := 200; resHeaders := ∅; headersSent := false;
     payload := NoPayload; ended := false |}.

(** *** Process state *)

(** [accessToken] and [tokenExpiry] are the two globals of lines 14-15;
    [res] is the response object of the request being handled; [ticks]
    counts the readings of the clock and [trace] records the events. *)
Record World := {
  accessToken : JsVal;
  tokenExpiry : option Z;
  res : Res;
  ticks : nat;
  trace : list Event
}.

Definition initial : World :=
  {| accessToken := JsNull; tokenExpiry := None; res := fresh_res;
     ticks := 0; trace := [] |}.

Definition is_post (e : Event) : bool :=
  match e with TokenPost _ _ _ _ => true | _ => false end.
Definition is_get (e : Event) : bool :=
  match e with UpstreamGet _ _ _ => true | _ => false end.

Definition posts (tr : list Event) : nat := length (filter is_post tr).
Definition gets (tr : list Event) : nat := length (filter is_get tr).

(** *** Requests *)

(** An inbound GET request: the parts of it that the handlers read
    ([req.query.*], [req.headers.range], [req.headers.accept],
    [req.protocol], [req.get('host')]) and the three headers by which
    express tells a conditional request ([If-None-Match],
    [If-Modified-Since], and [Cache-Control], which can switch the
    other two off).  HEAD requests, which express hands to the same
    handlers, are not modelled. *)
Record Request := {
  query_url : JsVal;
  query_filePath : JsVal;
  query_sourceLayer : JsVal;
  headers_range : JsVal;
  headers_accept : JsVal;
  protocol : string;
  host : JsVal;
  headers_if_none_match : JsVal;
  headers_if_modified_since : JsVal;
  headers_cache_control : JsVal
}.

(** The oracle: the [n]-th reading of the clock, the reply to the [n]-th
    POST to the identity endpoint, the outcome of the [n]-th upstream GET.
    [freshness] is express's comparison of the validators of a
    conditional request with the entity tag that it computes for a body
    it is about to send (a hash of the body); that comparison is library
    code, and is taken as it comes. *)
Record Env := {
  clockAt : nat → Z;
  identity : nat → TokenReply;
  remote : nat → string → gmap string string → FetchOutcome;
  freshness : Request → Json → bool
}.

(** *** Asynchronous functions as state transformers that may throw *)

Inductive Completion (A : Type) :=
  | Normal (a : A)
  | Throw (e : JsError).
Arguments Normal {A} a.
Arguments Throw {A} e.

Definition Task (A : Type) : Type := Env → World → Completion A * World.

#[global] Instance Task_ret : MRet Task :=
  λ A a _ w, (Normal a, w).

#[global] Instance Task_bind : MBind Task :=
  λ A B k m env w,
    match m env w with
    | (Normal a, w') => k a env w'
    | (Throw e, w') => (Throw e, w')
    end.

Definition throw {A} (e : JsError) : Task A := λ _ w, (Throw e, w).

(** [try { body } catch (error) { handler }]. *)
Definition try_catch {A} (body : Task A) (handler : JsError → Task A) : Task A :=
  λ env w,
    match body env w with
    | (Normal a, w') => (Normal a, w')
    | (Throw e, w') => handler e env w'
    end.

Definition emit (e : Event) : Task unit :=
  λ _ w, (Normal (),
          {| accessToken := accessToken w; tokenExpiry := tokenExpiry w;
             res := res w; ticks := ticks w; trace := trace w ++ [e] |}).

Definition console (sev : Severity) (text : string) : Task unit :=
  emit (Console sev text).

(** [Date.now()] and [new Date()]. *)
Definition now : Task Z :=
  λ env w, (Normal (clockAt env (ticks w)),
            {| accessToken := accessToken w; tokenExpiry := tokenExpiry w;
               res := res w; ticks := S (ticks w); trace := trace w |}).

Definition get_accessToken : Task JsVal := λ _ w, (Normal (accessToken w), w).
Definition get_tokenExpiry : Task (option Z) := λ _ w, (Normal (tokenExpiry w), w).

Definition set_accessToken (v : JsVal) : Task unit :=
  λ _ w, (Normal (),
          {| accessToken := v; tokenExpiry := tokenExpiry w;
             res := res w; ticks := ticks w; trace := trace w |}).

Definition set_tokenExpiry (d : option Z) : Task unit :=
  λ _ w, (Normal (),
          {| accessToken := accessToken w; tokenExpiry := d;
             res := res w; ticks := ticks w; trace := trace w |}).

Definition update_res (f : Res → Res) : Task unit :=
  λ _ w, (Normal (),
          {| accessToken := accessToken w; tokenExpiry := tokenExpiry w;
             res := f (res w); ticks := ticks w; trace := trace w |}).

(** [axios.post]: the promise rejects when there is no response and when
    the status is outside 200..299. *)
Definition status_2xx (status : Z) : bool := (200 <=? status) && (status <? 300).

Definition axios_post (url authorization body : string) : Task (option TokenData) :=
  λ env w,
    let reply := identity env (posts (trace w)) in
    let w' := snd (emit (TokenPost url authorization body reply) env w) in
    match reply with
    | NoResponse => (Throw (AxiosError None), w')
    | HttpReply status data =>
        if status_2xx status then (Normal data, w')
        else (Throw (AxiosError (Some status)), w')
    end.

(** [fetch(url, { headers })]. *)
Definition fetch (url : string) (headers : gmap string string) : Task UpstreamResponse :=
  λ env w,
    let outcome := remote env (gets (trace w)) url headers in
    let w' := snd (emit (UpstreamGet url headers outcome) env w) in
    match outcome with
    | FetchRejected => (Throw FetchError, w')
    | FetchResolved r => (Normal r, w')
    end.

(** ** Token manager *)

(** [response.data.expires_in || 3600]. *)
Definition expiresIn_of (data : TokenData) : Z :=
  match expires_in data with
  | Some n => if n =? 0 then 3600 else n
  | None => 3600
  end.

(** Lines 18-53. *)
Definition fetchDatabricksToken (cfg : Config) : Task JsVal :=
  if negb (truthy (DATABRICKS_CLIENT_ID cfg))
     || negb (truthy (DATABRICKS_CLIENT_SECRET cfg))
     || negb (truthy (DATABRICKS_HOST cfg))
  then
    console Error "Missing (some) required environment variables: DATABRICKS_CLIENT_ID, DATABRICKS_CLIENT_SECRET, DATABRICKS_HOST";;
    mret JsNull
  else
    let TOKEN_URL := "https://" +:+ template (DATABRICKS_HOST cfg) +:+ "/oidc/v1/token" in
    let auth := base64 (template (DATABRICKS_CLIENT_ID cfg) +:+ ":"
                        +:+ template (DATABRICKS_CLIENT_SECRET cfg)) in
    try_catch
      (response_data ← axios_post TOKEN_URL ("Basic " +:+ auth)
                         "grant_type=client_credentials&scope=all-apis";
       data ← match response_data with
              | Some d => mret d
              | None => throw TypeError
              end;
       set_accessToken (access_token data);;
       let expiresIn := expiresIn_of data in
       t ← now;
       set_tokenExpiry (Some (t + expiresIn * 1000));;
       console Log "Access Token fetched successfully";;
       get_accessToken)
      (λ error, console Error "Error fetching token:";; mret JsNull).

(** The test of line 58, with its short-circuits: the clock is read only
    when a token and an expiry are there. *)
Definition token_is_stale : Task bool :=
  tok ← get_accessToken;
  if negb (truthy tok) then mret true
  else
    expiry ← get_tokenExpiry;
    match expiry with
    | None => mret true
    | Some e => t ← now; mret (e - 5 * 60 * 1000 <? t)
    end.

(** Lines 56-63. *)
Definition getValidAccessToken (cfg : Config) : Task JsVal :=
  stale ← token_is_stale;
  (if stale : bool then
     console Log "Token expired or expiring soon, fetching new token...";;
     fetchDatabricksToken cfg;;
     mret ()
   else mret ());;
  get_accessToken.

(** ** Range-forwarding proxy *)

(** [res.status(code)]. *)
Definition res_status (code : Z) (r : Res) : Res :=
  {| statusCode := if headersSent r then statusCode r else code;
     resHeaders := resHeaders r; headersSent := headersSent r;
     payload := payload r; ended := ended r |}.

(** [res.set(name, value)] and [res.header(name, value)]. *)
Definition res_set (name value : string) (r : Res) : Res :=
  {| statusCode := statusCode r;
     resHeaders := <[name := value]> (resHeaders r);
     headersSent := headersSent r; payload := payload r; ended := ended r |}.

(** Whether a request is conditional: it carries [If-None-Match] or
    [If-Modified-Since]. *)
Definition conditional (req : Request) : bool :=
  truthy (headers_if_none_match req) || truthy (headers_if_modified_since req).

(** [req.fresh], when a body is about to be sent: only a response with a
    status in 200..299 (or 304) to a conditional request can be fresh,
    and then express's comparison of the validators decides. *)
Definition req_fresh (env : Env) (req : Request) (r : Res) (body : Json) : bool :=
  ((200 <=? statusCode r) && (statusCode r <? 300) || (statusCode r =? 304))
  && conditional req
  && freshness env req body.

(** What [res.send] makes of the response object for a JSON body.  The
    content type is [application/json] unless one was set before, with
    the charset added; a Content-Length set before is replaced by the
    one of the body (which, being derived, is left out).  When the
    request is fresh the status becomes 304, the content type goes and
    nothing is sent as body.  The response ends. *)
Definition send_json (fresh : bool) (body : Json) (r : Res) : Res :=
  let content_type :=
    match resHeaders r !! "Content-Type" with
    | Some t => t
    | None => "application/json"
    end in
  if fresh then
    {| statusCode := 304;
       resHeaders := delete "Content-Type" (delete "Content-Length" (resHeaders r));
       headersSent := true; payload := NoPayload; ended := true |}
  else
    {| statusCode := statusCode r;
       resHeaders := <["Content-Type" := content_type +:+ "; charset=utf-8"]>
                       (delete "Content-Length" (resHeaders r));
       headersSent := true; payload := JsonPayload body; ended := true |}.

(** [res.json(body)], in the handling of [req]. *)
Definition res_json (req : Request) (body : Json) : Task unit :=
  λ env w, update_res (send_json (req_fresh env req (res w) body) body) env w.

(** [res.sendStatus(200)]. *)
Definition res_sendStatus_200 (r : Res) : Res :=
  {| statusCode := 200;
     resHeaders := <["Content-Type" := "text/plain; charset=utf-8"]> (resHeaders r);
     headersSent := true; payload := TextPayload "OK"; ended := true |}.

(** [res.write(chunk)]: the first write sends the head. *)
Definition res_write (chunk : string) (r : Res) : Res :=
  {| statusCode := statusCode r; resHeaders := resHeaders r;
     headersSent := true;
     payload := match payload r with
                | StreamPayload written => StreamPayload (written ++ [chunk])
                | _ => StreamPayload [chunk]
                end;
     ended := ended r |}.

(** [res.end()]. *)
Definition res_end (r : Res) : Res :=
  {| statusCode := statusCode r; resHeaders := resHeaders r;
     headersSent := true;
     payload := match payload r with
                | NoPayload => StreamPayload []
                | p => p
                end;
     ended := true |}.

(** [response.headers.get(name)]. *)
Definition headers_get (name : string) (response : UpstreamResponse) : JsVal :=
  match up_headers response !! name with
  | Some v => JsString v
  | None => JsNull
  end.

(** [response.ok]. *)
Definition response_ok (response : UpstreamResponse) : bool :=
  (200 <=? up_status response) && (up_status response <=? 299).

(** The [pump] of lines 166-178: every chunk is written as it is read;
    at [done] the response ends, at a read error it ends with 500. *)
Fixpoint pump (remaining : list string) (broken : bool) : Task unit :=
  match remaining with
  | value :: rest => update_res (res_write value);; pump rest broken
  | [] =>
      if broken then
        console Error "Streaming error:";;
        update_res (res_status 500);;
        update_res res_end
      else update_res res_end
  end.

(** [if (value) headers[name] = value]. *)
Definition set_if_truthy (name : string) (value : JsVal)
    (headers : gmap string string) : gmap string string :=
  if truthy value then <[name := template value]> headers else headers.

(** The descriptor of lines 99-104. *)
Definition tilejson (req : Request) (url : string) : Json :=
  JObject [("type", JStr "vector");
           ("tiles", JArray [JStr (protocol req +:+ "://" +:+ template (host req)
                                   +:+ "/proxy/pmtiles?url=" +:+ url)]);
           ("minzoom", JNumber 0);
           ("maxzoom", JNumber 14)].

(** Lines 86-92: the decoded URL, or the raw one when decoding throws. *)
Definition decoded_url (raw : string) : string :=
  match decodeURIComponent raw with
  | Some decoded => decoded
  | None => raw
  end.

(** Line 95. *)
Definition isTileJsonRequest (req : Request) : bool :=
  negb (truthy (headers_range req))
  && truthy (headers_accept req)
  && includes "application/json" (template (headers_accept req)).

(** Lines 140-162: the head of the response, from the upstream one. *)
Definition forward_response_headers (response : UpstreamResponse) : Task unit :=
  update_res (res_set "Content-Type" "application/octet-stream");;
  update_res (res_set "Access-Control-Allow-Origin" "*");;
  update_res (res_set "Access-Control-Allow-Methods" "GET, HEAD, OPTIONS");;
  update_res (res_set "Access-Control-Allow-Headers" "Range, Authorization");;
  (if truthy (headers_get "content-range" response)
   then update_res (res_set "Content-Range" (template (headers_get "content-range" response)))
   else mret ());;
  (if truthy (headers_get "content-length" response)
   then update_res (res_set "Content-Length" (template (headers_get "content-length" response)))
   else mret ());;
  (if truthy (headers_get "accept-ranges" response)
   then update_res (res_set "Accept-Ranges" (template (headers_get "accept-ranges" response)))
   else mret ());;
  (if up_status response =? 206
   then update_res (res_status 206)
   else update_res (res_status 200)).

(** Lines 164-180: [response.body.getReader()] throws when there is no
    body; otherwise the pump runs. *)
Definition stream_response (response : UpstreamResponse) : Task unit :=
  body ← match up_body response with
         | Some body => mret body
         | None => throw TypeError
         end;
  pump (chunks body) (broken body).

(** Lines 108-181, the body of the [try]. *)
Definition forward (cfg : Config) (req : Request) (url : string) : Task unit :=
  let range := headers_range req in
  let headers : gmap string string := {[ "User-Agent" := "PMTiles-Viewer/1.0" ]} in
  authToken ← getValidAccessToken cfg;
  headers ← (if truthy authToken
             then console Log "Using Databricks auth token for PMTiles request";;
                  mret (<["Authorization" := "Bearer " +:+ template authToken]> headers)
             else console Log "No auth token available for PMTiles request";;
                  mret headers);
  let headers := set_if_truthy "Range" range headers in
  console Log "Fetching URL with headers:";;
  response ← fetch url headers;
  (if negb (response_ok response)
   then console Error "HTTP error response:";;
        throw (HttpError "HTTP error! status")
   else mret ());;
  forward_response_headers response;;
  stream_response response.

(** [app.get('/proxy/pmtiles', ...)], lines 77-186.  The handler works on
    a fresh response object. *)
Definition proxy_pmtiles (cfg : Config) (req : Request) : Task unit :=
  update_res (λ _, fresh_res);;
  let url := query_url req in
  console Log "Proxy request received for URL:";;
  if negb (truthy url) then
    update_res (res_status 400);;
    res_json req (JObject [("error", JStr "URL parameter required")])
  else
    let raw := template url in
    (match decodeURIComponent raw with
     | Some _ => console Log "Decoded URL:"
     | None => console Log "URL was not encoded, using as-is"
     end);;
    let url := decoded_url raw in
    if isTileJsonRequest req then
      res_json req (tilejson req url)
    else
      try_catch (forward cfg req url)
        (λ error,
           console Error "Proxy error:";;
           update_res (res_status 500);;
           res_json req (JObject [("error", JStr "Failed to fetch PMTiles file")])).

(** [app.options('/proxy/pmtiles', ...)], lines 189-194. *)
Definition options_pmtiles : Task unit :=
  update_res (λ _, fresh_res);;
  update_res (res_set "Access-Control-Allow-Origin" "*");;
  update_res (res_set "Access-Control-Allow-Methods" "GET, HEAD, OPTIONS");;
  update_res (res_set "Access-Control-Allow-Headers" "Range, Authorization");;
  update_res res_sendStatus_200.

(** ** Configuration endpoint *)

(** A property of an object literal as [JSON.stringify] keeps it: a
    property whose value is [undefined] is dropped. *)
Definition json_property (name : string) (v : JsVal) : list (string * Json) :=
  match v with
  | JsUndefined => []
  | JsNull => [(name, JNull)]
  | JsString s => [(name, JStr s)]
  end.

(** Lines 205 and 210. *)
Definition ucUrl_of (cfg : Config) (filePath : JsVal) : string :=
  "https://" +:+ template (DATABRICKS_HOST cfg) +:+ "/api/2.0/fs/files" +:+ template filePath.

Definition proxyUrl_of (ucUrl : string) : string :=
  "/proxy/pmtiles?url=" +:+ encodeURIComponent ucUrl.

(** [app.get('/api/config', ...)], lines 197-218. *)
Definition api_config (cfg : Config) (req : Request) : Task unit :=
  update_res (λ _, fresh_res);;
  let filePath := query_filePath req in
  let sourceLayer := query_sourceLayer req in
  console Log "Received parameters:";;
  let ucUrl := ucUrl_of cfg filePath in
  console Log "Generated URL:";;
  let proxyUrl := proxyUrl_of ucUrl in
  res_json req (JObject ([("pmtilesUrl", JStr proxyUrl)]
                          ++ json_property "sourceLayer" sourceLayer
                          ++ [("baseMapUrl", JStr "https://tile.openstreetmap.org/{z}/{x}/{y}.png");
                              ("zoom", JNumber 7)])).

(** ** The process *)

(** What the process does, one activity at a time: the token fetch of
    start-up (lines 66-68) and the handling of a request. *)
Inductive Activity :=
  | Startup
  | GetProxy (req : Request)
  | OptionsProxy
  | GetConfig (req : Request).

Definition perform (cfg : Config) (a : Activity) : Task unit :=
  match a with
  | Startup =>
      fetchDatabricksToken cfg;;
      console Log "Initial Databricks token fetch completed"
  | GetProxy req => proxy_pmtiles cfg req
  | OptionsProxy => options_pmtiles
  | GetConfig req => api_config cfg req
  end.

(** The world after a task, whatever it returned. *)
Definition after {A} (t : Task A) (env : Env) (w : World) : World := snd (t env w).

(** The worlds the process can be in: the initial one and every one an
    activity leads to. *)
Inductive reachable (cfg : Config) (env : Env) : World → Prop :=
  | reachable_initial : reachable cfg env initial
  | reachable_step w a :
      reachable cfg env w →
      reachable cfg env (after (perform cfg a) env w).

End Server.
Export Server.

(** * Vocabulary of the properties *)

Module Vocabulary.

(** ** Reading the trace *)

Definition missing_message : string :=
  "Missing (some) required environment variables: DATABRICKS_CLIENT_ID, DATABRICKS_CLIENT_SECRET, DATABRICKS_HOST".

(** The test of line 19. *)
Definition missing_config (cfg : Config) : bool :=
  negb (truthy (DATABRICKS_CLIENT_ID cfg))
  || negb (truthy (DATABRICKS_CLIENT_SECRET cfg))
  || negb (truthy (DATABRICKS_HOST cfg)).

(** The data of a reply that makes the fetch succeed: a status in
    200..299 and a body that is an object. *)
Definition granted (reply : TokenReply) : option TokenData :=
  match reply with
  | HttpReply status (Some data) => if status_2xx status then Some data else None
  | _ => None
  end.

(** Every run of [fetchDatabricksToken] leaves exactly one of two marks:
    the complaint about the configuration, or the POST.  [outcome_of]
    reads the outcome of the run off the mark: [Some data] for a
    success, [None] for a failure. *)
Definition outcome_of (e : Event) : option (option TokenData) :=
  match e with
  | TokenPost _ _ _ reply => Some (granted reply)
  | Console Error text => if String.eqb text missing_message then Some None else None
  | _ => None
  end.

(** The outcomes of all token fetches so far, oldest first. *)
Definition fetch_outcomes (tr : list Event) : list (option TokenData) :=
  omap outcome_of tr.

(** How many times [fetchDatabricksToken] ran. *)
Definition fetch_invocations (tr : list Event) : nat := length (fetch_outcomes tr).

(** The data of the most recent successful fetch. *)
Definition latest_grant (tr : list Event) : option TokenData :=
  last (omap id (fetch_outcomes tr)).

(** The upstream requests so far, each with what came back. *)
Definition exchange_of (e : Event) : option (string * gmap string string * FetchOutcome) :=
  match e with
  | UpstreamGet url headers outcome => Some (url, headers, outcome)
  | _ => None
  end.

Definition upstream_exchanges (tr : list Event)
  : list (string * gmap string string * FetchOutcome) :=
  omap exchange_of tr.

(** The reply the identity endpoint will give to the next POST. *)
Definition next_reply (env : Env) (w : World) : TokenReply :=
  identity env (posts (trace w)).

(** The Token State: the pair of globals. *)
Definition token_state (w : World) : JsVal * option Z := (accessToken w, tokenExpiry w).

(** The events of one run of [fetchDatabricksToken]. *)
Definition fetch_events (cfg : Config) (reply : TokenReply) : list Event :=
  if missing_config cfg then [Console Error missing_message]
  else
    TokenPost ("https://" +:+ template (DATABRICKS_HOST cfg) +:+ "/oidc/v1/token")
              ("Basic " +:+ base64 (template (DATABRICKS_CLIENT_ID cfg) +:+ ":"
                                    +:+ template (DATABRICKS_CLIENT_SECRET cfg)))
              "grant_type=client_credentials&scope=all-apis" reply
    :: match granted reply with
       | Some _ => [Console Log "Access Token fetched successfully"]
       | None => [Console Error "Error fetching token:"]
       end.

(** The three ways a token fetch fails. *)
Inductive fetch_fails (cfg : Config) (reply : TokenReply) : Prop :=
  | fails_missing_configuration :
      missing_config cfg = true → fetch_fails cfg reply
  | fails_network_error :
      reply = NoResponse → fetch_fails cfg reply
  | fails_non_2xx status data :
      reply = HttpReply status data → status_2xx status = false →
      fetch_fails cfg reply.

(** ** The refresh test *)

(** The test of line 58 read positively: a token is cached and the clock
    has not passed five minutes before its expiry, that is, the expiry is
    at least five minutes ahead. *)
Definition fresh (env : Env) (w : World) : bool :=
  truthy (accessToken w) &&
  match tokenExpiry w with
  | Some e => negb (e - 5 * 60 * 1000 <? clockAt env (ticks w))
  | None => false
  end.

(** The test as the specification words it: a token is cached and its
    expiry is more than five minutes in the future. *)
Definition more_than_five_minutes_left (env : Env) (w : World) : bool :=
  truthy (accessToken w) &&
  match tokenExpiry w with
  | Some e => clockAt env (ticks w) + 5 * 60 * 1000 <? e
  | None => false
  end.

(** The refresh rule as the specification words it: with more than five
    minutes left the cached token is returned and nothing is fetched;
    otherwise the token is fetched once. *)
Definition refreshes_as_specified (cfg : Config) (env : Env) (w : World) : Prop :=
  let w' := after (getValidAccessToken cfg) env w in
  (more_than_five_minutes_left env w = true →
     fst (getValidAccessToken cfg env w) = Normal (accessToken w)
     ∧ fetch_invocations (trace w') = fetch_invocations (trace w))
  ∧ (more_than_five_minutes_left env w = false →
     fetch_invocations (trace w') = S (fetch_invocations (trace w))).

(** Whether line 58 gets as far as reading the clock. *)
Definition reads_clock (w : World) : bool :=
  truthy (accessToken w) &&
  match tokenExpiry w with Some _ => true | None => false end.

Definition tick (w : World) : World :=
  {| accessToken := accessToken w; tokenExpiry := tokenExpiry w;
     res := res w; ticks := S (ticks w); trace := trace w |}.

(** The world in which the refresh starts: the test is done and line 59
    has logged. *)
Definition announced (w : World) : World :=
  {| accessToken := accessToken w; tokenExpiry := tokenExpiry w;
     res := res w;
     ticks := if reads_clock w then S (ticks w) else ticks w;
     trace := trace w ++ [Console Log "Token expired or expiring soon, fetching new token..."] |}.

(** ** Invariants of tasks *)

Definition preserves (I : World → Prop) {A} (t : Task A) : Prop :=
  ∀ env w, I w → I (after t env w).

(** The cached token is the one of the most recent successful fetch. *)
Definition token_of_grant (g : option TokenData) : JsVal :=
  match g with
  | Some data => access_token data
  | None => JsNull
  end.

Definition token_matches (w : World) : Prop :=
  accessToken w = token_of_grant (latest_grant (trace w)).

(** The invariant as the specification words it: the token is absent
    exactly when the most recent fetch, if any, was not a success. *)
Definition absent_iff_no_success_since_failure (w : World) : Prop :=
  truthy (accessToken w) = false
  ↔ ¬ ∃ data, last (fetch_outcomes (trace w)) = Some (Some data).

(** ** Responses *)

(** A header value that is there and not empty, which is what the
    truthiness tests of the handlers let through. *)
Definition nonempty (value : option string) : option string :=
  match value with
  | Some s => if String.eqb s EmptyString then None else Some s
  | None => None
  end.

(** The response after the pump has run on it. *)
Definition pumped (cs : list string) (broken : bool) (r : Res) : Res :=
  let r' := fold_left (λ r c, res_write c r) cs r in
  res_end (if broken then res_status 500 r' else r').

(** A body that can be streamed at least up to its first chunk. *)
Definition starts_streaming (body : UpstreamBody) : bool :=
  negb (broken body) || negb (bool_decide (chunks body = [])).

Definition error_response (code : Z) (message : string) : Res :=
  {| statusCode := code;
     resHeaders := {[ "Content-Type" := "application/json; charset=utf-8" ]};
     headersSent := true;
     payload := JsonPayload (JObject [("error", JStr message)]);
     ended := true |}.

(** The world a proxy request that carries a URL is in when the [try]
    starts or the descriptor is built: fresh response, two lines logged. *)
Definition arrived (req : Request) (w : World) : World :=
  {| accessToken := accessToken w; tokenExpiry := tokenExpiry w;
     res := fresh_res; ticks := ticks w;
     trace := trace w ++ [Console Log "Proxy request received for URL:";
                          Console Log (match decodeURIComponent (template (query_url req)) with
                                       | Some _ => "Decoded URL:"
                                       | None => "URL was not encoded, using as-is"
                                       end)] |}.

(** The URL the proxy works with. *)
Definition target_url (req : Request) : string := decoded_url (template (query_url req)).

(** The world of a byte-range request once the token has been asked for. *)
Definition authorised (cfg : Config) (env : Env) (req : Request) (w : World) : World :=
  after (getValidAccessToken cfg) env (arrived req w).

(** The [headers] option of the upstream request, lines 113-129. *)
Definition upstream_headers (authToken range : JsVal) : gmap string string :=
  set_if_truthy "Range" range
    (if truthy authToken
     then <["Authorization" := "Bearer " +:+ template authToken]>
            {[ "User-Agent" := "PMTiles-Viewer/1.0" ]}
     else {[ "User-Agent" := "PMTiles-Viewer/1.0" ]}).

(** The [headers] option that the proxy gives to [fetch] for a request,
    and what the remote store answers. *)
Definition request_headers (cfg : Config) (env : Env) (req : Request) (w : World)
  : gmap string string :=
  upstream_headers (accessToken (authorised cfg env req w)) (headers_range req).

Definition upstream_outcome (cfg : Config) (env : Env) (req : Request) (w : World)
  : FetchOutcome :=
  remote env (gets (trace (authorised cfg env req w))) (target_url req)
         (request_headers cfg env req w).

(** [if (value) res.set(name, value)]. *)
Definition copy_if_truthy (name : string) (value : JsVal) (r : Res) : Res :=
  if truthy value then res_set name (template value) r else r.

(** What lines 141-162 make of a response object. *)
Definition head_on (response : UpstreamResponse) (r : Res) : Res :=
  res_status (if up_status response =? 206 then 206 else 200)
    (copy_if_truthy "Accept-Ranges" (headers_get "accept-ranges" response)
    (copy_if_truthy "Content-Length" (headers_get "content-length" response)
    (copy_if_truthy "Content-Range" (headers_get "content-range" response)
    (res_set "Access-Control-Allow-Headers" "Range, Authorization"
    (res_set "Access-Control-Allow-Methods" "GET, HEAD, OPTIONS"
    (res_set "Access-Control-Allow-Origin" "*"
    (res_set "Content-Type" "application/octet-stream" r))))))).

Definition success_head (response : UpstreamResponse) : Res := head_on response fresh_res.

(** A world with another response object, and with more events. *)
Definition with_res (r : Res) (w : World) : World :=
  {| accessToken := accessToken w; tokenExpiry := tokenExpiry w;
     res := r; ticks := ticks w; trace := trace w |}.

Definition with_events (events : list Event) (w : World) : World :=
  {| accessToken := accessToken w; tokenExpiry := tokenExpiry w;
     res := res w; ticks := ticks w; trace := trace w ++ events |}.

(** The response of the proxy to a byte-range request, from what the
    upstream fetch came back with. *)
Definition proxy_response (outcome : FetchOutcome) : Res :=
  match outcome with
  | FetchResolved response =>
      if response_ok response then
        match up_body response with
        | Some body => pumped (chunks body) (broken body) (success_head response)
        | None =>
            send_json false (JObject [("error", JStr "Failed to fetch PMTiles file")])
                      (res_status 500 (success_head response))
        end
      else error_response 500 "Failed to fetch PMTiles file"
  | FetchRejected => error_response 500 "Failed to fetch PMTiles file"
  end.

(** What [res.json] makes of a response object that nothing was done
    to: the body under status 200, or the bare 304 of a conditional
    request that express finds fresh. *)
Definition json_response (body : Json) : Res :=
  {| statusCode := 200;
     resHeaders := {[ "Content-Type" := "application/json; charset=utf-8" ]};
     headersSent := true;
     payload := JsonPayload body;
     ended := true |}.

Definition not_modified : Res :=
  {| statusCode := 304; resHeaders := ∅; headersSent := true;
     payload := NoPayload; ended := true |}.

(** Whether [req], answered with [body] under status 200, gets the 304. *)
Definition revalidated (env : Env) (req : Request) (body : Json) : bool :=
  conditional req && freshness env req body.

(** The object of lines 212-217. *)
Definition config_object (cfg : Config) (req : Request) : Json :=
  JObject ([("pmtilesUrl", JStr (proxyUrl_of (ucUrl_of cfg (query_filePath req))))]
           ++ json_property "sourceLayer" (query_sourceLayer req)
           ++ [("baseMapUrl", JStr "https://tile.openstreetmap.org/{z}/{x}/{y}.png");
               ("zoom", JNumber 7)]).

(** The events of a byte-range request after the upstream request. *)
Definition closing_events (outcome : FetchOutcome) : list Event :=
  match outcome with
  | FetchResolved response =>
      if response_ok response then
        match up_body response with
        | Some body => if broken body then [Console Error "Streaming error:"] else []
        | None => [Console Error "Proxy error:"]
        end
      else [Console Error "HTTP error response:"; Console Error "Proxy error:"]
  | FetchRejected => [Console Error "Proxy error:"]
  end.

(** The first entry of [tiles] in a descriptor sent as JSON. *)
Definition advertised_tiles (p : Payload) : option string :=
  match p with
  | JsonPayload (JObject fields) =>
      match snd <$> list_find (λ f, fst f = "tiles") fields with
      | Some (_, JArray (JStr tiles :: _)) => Some tiles
      | _ => None
      end
  | _ => None
  end.

(** ** The claims about responses as the specification words them *)


(** The response carries a descriptor: an object with a tiles template
    and the zoom bounds 0 and 14. *)
Definition descriptor_as_specified (r : Res) : Prop :=
  ∃ fields tiles,
    payload r = JsonPayload (JObject fields)
    ∧ ("tiles", JArray [JStr tiles]) ∈ fields
    ∧ ("minzoom", JNumber 0) ∈ fields
    ∧ ("maxzoom", JNumber 14) ∈ fields.

(** The response contains a [pmtilesUrl] and the [sourceLayer] [layer1]. *)
Definition config_as_specified (r : Res) : Prop :=
  ∃ fields url,
    payload r = JsonPayload (JObject fields)
    ∧ ("pmtilesUrl", JStr url) ∈ fields
    ∧ ("sourceLayer", JStr "layer1") ∈ fields.

(** ** Query strings

    How a client reads the [url] parameter back from an advertised URL.
    This is not code of the repository; it follows the common query
    syntax: the query starts after the first [?], parameters are
    separated by [&], name and value by the first [=], and both are
    percent-decoded (a [+] is a space). *)

Fixpoint split_first (sep : ascii) (s : string) : string * option string :=
  match s with
  | EmptyString => (EmptyString, None)
  | String c rest =>
      if Ascii.eqb c sep then (EmptyString, Some rest)
      else let (before, after) := split_first sep rest in (String c before, after)
  end.

Fixpoint split_all (sep : ascii) (s : string) : list string :=
  match s with
  | EmptyString => [EmptyString]
  | String c rest =>
      if Ascii.eqb c sep then EmptyString :: split_all sep rest
      else match split_all sep rest with
           | first :: others => String c first :: others
           | [] => [String c EmptyString]
           end
  end.

Fixpoint plus_to_space (s : string) : string :=
  match s with
  | EmptyString => EmptyString
  | String c rest => String (if Ascii.eqb c "+" then " "%char else c) (plus_to_space rest)
  end.

Definition decode_component (s : string) : string := decoded_url (plus_to_space s).

Definition parameter_of (part : string) : string * string :=
  let (name, value) := split_first "=" part in
  (decode_component name, decode_component (default EmptyString value)).

Definition query_parameter (name url : string) : option string :=
  match split_first "?" url with
  | (_, Some query) =>
      (λ found, snd (snd found))
        <$> list_find (λ p, fst p = name) (parameter_of <$> split_all "&" query)
  | (_, None) => None
  end.

(** ** Scenarios *)

Definition demo_cfg : Config :=
  {| DATABRICKS_CLIENT_ID := JsString "id";
     DATABRICKS_CLIENT_SECRET := JsString "secret";
     DATABRICKS_HOST := JsString "adb.example.net" |}.

Definition no_cfg : Config :=
  {| DATABRICKS_CLIENT_ID := JsUndefined;
     DATABRICKS_CLIENT_SECRET := JsUndefined;
     DATABRICKS_HOST := JsUndefined |}.

(** A token good for one hour. *)
Definition hour_token : TokenData :=
  {| access_token := JsString "T1"; expires_in := Some 3600 |}.

(** A remote store that honours ranges. *)
Definition partial_content : UpstreamResponse :=
  {| up_status := 206;
     up_headers := {[ "content-range" := "bytes 0-3/100";
                      "content-length" := "4";
                      "accept-ranges" := "bytes" ]};
     up_body := Some {| chunks := ["PM"; "Ti"]; broken := false |} |}.

Definition forbidden : UpstreamResponse :=
  {| up_status := 403; up_headers := ∅;
     up_body := Some {| chunks := ["denied"]; broken := false |} |}.

(** The one conditional request that is fresh for express whatever the
    body and its entity tag: [If-None-Match: *], with no
    [If-Modified-Since] and no [Cache-Control]. *)
Definition matches_any (req : Request) : bool :=
  match headers_if_none_match req with
  | JsString tags => String.eqb tags "*"
  | _ => false
  end
  && negb (truthy (headers_if_modified_since req))
  && negb (truthy (headers_cache_control req)).

(** The clock stands at 0 for the first reading and at [later] from
    then on; the identity endpoint grants [hour_token] to the first POST
    and answers the following ones with [then_reply]; of the conditional
    requests only those of [matches_any] are fresh. *)
Definition scenario (later : Z) (then_reply : TokenReply) (store : FetchOutcome) : Env :=
  {| clockAt := λ n, match n with O => 0 | S _ => later end;
     identity := λ n, match n with
                      | O => HttpReply 200 (Some hour_token)
                      | S _ => then_reply
                      end;
     remote := λ _ _ _, store;
     freshness := λ req _, matches_any req |}.

(** The first call comes exactly five minutes before the expiry. *)
Definition boundary_env : Env := scenario 3300000 NoResponse FetchRejected.

(** The first call comes a minute after the start-up. *)
Definition minute_env : Env := scenario 60000 NoResponse FetchRejected.

(** The token has less than five minutes left and the identity endpoint
    has become unreachable. *)
Definition outage_env : Env := scenario 3400000 NoResponse FetchRejected.

(** The remote store serves a range, or refuses. *)
Definition serving_env : Env := scenario 60000 NoResponse (FetchResolved partial_content).
Definition refusing_env : Env := scenario 60000 NoResponse (FetchResolved forbidden).

(** A target URL with a query of its own. *)
Definition target_with_query : string :=
  "https://adb.example.net/api/2.0/fs/files/Volumes/x/y/z.pmtiles?a=1&b=2".

(** The process after a start-up in which the token was granted at time
    0; it expires at 3 600 000. *)
Definition started (env : Env) : World := after (perform demo_cfg Startup) env initial.

Definition range_request : Request :=
  {| query_url := JsString "https://adb.example.net/api/2.0/fs/files/Volumes/x/y/z.pmtiles";
     query_filePath := JsUndefined;
     query_sourceLayer := JsUndefined;
     headers_range := JsString "bytes=0-3";
     headers_accept := JsString "*/*";
     protocol := "http";
     host := JsString "localhost:3000";
     headers_if_none_match := JsUndefined;
     headers_if_modified_since := JsUndefined;
     headers_cache_control := JsUndefined |}.

Definition probe_request (target : string) : Request :=
  {| query_url := JsString target;
     query_filePath := JsUndefined;
     query_sourceLayer := JsUndefined;
     headers_range := JsUndefined;
     headers_accept := JsString "application/json";
     protocol := "http";
     host := JsString "localhost:3000";
     headers_if_none_match := JsUndefined;
     headers_if_modified_since := JsUndefined;
     headers_cache_control := JsUndefined |}.

Definition urlless_request : Request :=
  {| query_url := JsUndefined;
     query_filePath := JsUndefined;
     query_sourceLayer := JsUndefined;
     headers_range := JsString "bytes=0-3";
     headers_accept := JsUndefined;
     protocol := "http";
     host := JsString "localhost:3000";
     headers_if_none_match := JsUndefined;
     headers_if_modified_since := JsUndefined;
     headers_cache_control := JsUndefined |}.

Definition config_request : Request :=
  {| query_url := JsUndefined;
     query_filePath := JsString "/Volumes/x/y/z.pmtiles";
     query_sourceLayer := JsString "layer1";
     headers_range := JsUndefined;
     headers_accept := JsString "*/*";
     protocol := "http";
     host := JsString "localhost:3000";
     headers_if_none_match := JsUndefined;
     headers_if_modified_since := JsUndefined;
     headers_cache_control := JsUndefined |}.

(** A request sent again by a client that holds an earlier answer and
    asks for it only if it is gone: [If-None-Match: *]. *)
Definition revalidating (req : Request) : Request :=
  {| query_url := query_url req;
     query_filePath := query_filePath req;
     query_sourceLayer := query_sourceLayer req;
     headers_range := headers_range req;
     headers_accept := headers_accept req;
     protocol := protocol req;
     host := host req;
     headers_if_none_match := JsString "*";
     headers_if_modified_since := JsUndefined;
     headers_cache_control := JsUndefined |}.

End Vocabulary.
Export Vocabulary.

(** * Further vocabulary *)

Module Coverage.

(** What the token cache and the identity endpoint have seen: the Token
    State, the outcomes of the token fetches and the number of POSTs. *)
Definition token_view (w : World) : (JsVal * option Z) * list (option TokenData) * nat :=
  (token_state w, fetch_outcomes (trace w), posts (trace w)).

(** The upstream request that an activity makes, if it makes one: only a
    proxy request with a URL that is not a metadata probe does. *)
Definition exchange_made (cfg : Config) (env : Env) (a : Activity) (w : World)
  : list (string * gmap string string * FetchOutcome) :=
  match a with
  | GetProxy req =>
      if truthy (query_url req) && negb (isTileJsonRequest req)
      then [(target_url req, request_headers cfg env req w, upstream_outcome cfg env req w)]
      else []
  | _ => []
  end.

(** The [headers] option of an upstream request. *)
Definition headers_of (x : string * gmap string string * FetchOutcome) : gmap string string :=
  snd (fst x).

(** The status the proxy mirrors: 206 for 206, 200 for every other
    success. *)
Definition mirrored_status (response : UpstreamResponse) : Z :=
  if up_status response =? 206 then 206 else 200.

(** The characters of a string. *)
Definition chars (s : string) : list ascii := list_ascii_of_string s.

(** A string without percent sign. *)
Definition percent_free (s : string) : Prop := "%"%char ∉ chars s.

(** A string of characters below 128. *)
Definition ascii_only (s : string) : Prop := Forall (λ c, byte_of c < 128) (chars s).

(** The characters that [encodeURIComponent] produces: the unreserved
    ones and the percent sign. *)
Definition query_safe (c : ascii) : bool := uri_unreserved c || Ascii.eqb c "%".

(** The strings that stand for JavaScript strings: well-formed UTF-8,
    that is, a sequence of encodings of one code point each. *)
Inductive well_formed : string → Prop :=
  | well_formed_empty : well_formed EmptyString
  | well_formed_one a s :
      byte_of a < 128 → well_formed s → well_formed (String a s)
  | well_formed_two a b s :
      utf8_code_point [byte_of a; byte_of b] = true →
      well_formed s → well_formed (String a (String b s))
  | well_formed_three a b c s :
      utf8_code_point [byte_of a; byte_of b; byte_of c] = true →
      well_formed s → well_formed (String a (String b (String c s)))
  | well_formed_four a b c d s :
      utf8_code_point [byte_of a; byte_of b; byte_of c; byte_of d] = true →
      well_formed s → well_formed (String a (String b (String c (String d s)))).


(** The remote store cannot be reached. *)
Definition unreachable_env : Env := scenario 60000 NoResponse FetchRejected.

(** The remote store answers without a body. *)
Definition no_content : UpstreamResponse :=
  {| up_status := 204; up_headers := ∅; up_body := None |}.
Definition bodiless_env : Env := scenario 60000 NoResponse (FetchResolved no_content).

(** The body breaks after its first chunk, or before it. *)
Definition broken_midway : UpstreamResponse :=
  {| up_status := 206; up_headers := {[ "content-range" := "bytes 0-3/100" ]};
     up_body := Some {| chunks := ["PM"]; broken := true |} |}.
Definition broken_at_start : UpstreamResponse :=
  {| up_status := 206; up_headers := {[ "content-range" := "bytes 0-3/100" ]};
     up_body := Some {| chunks := []; broken := true |} |}.


(** A request for the configuration without parameters. *)
Definition bare_config_request : Request :=
  {| query_url := JsUndefined;
     query_filePath := JsUndefined;
     query_sourceLayer := JsUndefined;
     headers_range := JsUndefined;
     headers_accept := JsString "*/*";
     protocol := "http";
     host := JsString "localhost:3000";
     headers_if_none_match := JsUndefined;
     headers_if_modified_since := JsUndefined;
     headers_cache_control := JsUndefined |}.

End Coverage.
Export Coverage.

(** * The page script *)

Module Frontend.

(** Lines 27-34 of the page script: the URL of the configuration request,
    from the two parameters of the page URL.  [URLSearchParams.get] gives
    a string, or [null] for a parameter that is not there. *)
Definition apiUrl (filePath sourceLayer : JsVal) : string :=
  "/api/config?filePath=" +:+ encodeURIComponent (template filePath)
  +:+ "&sourceLayer=" +:+ encodeURIComponent (template sourceLayer).

(** [config.name], for the object that [response.json()] gave (line 41):
    [None] is [undefined]; of two properties of the same name the later
    one counts. *)
Definition property (name : string) (config : list (string * Json)) : option Json :=
  snd <$> last (filter (λ field, fst field = name) config).

(** Truthiness of a property: [undefined], [null], 0 and the empty
    string are falsy. *)
Definition property_truthy (value : option Json) : bool :=
  match value with
  | None | Some JNull => false
  | Some (JNumber n) => negb (n =? 0)
  | Some (JStr s) => negb (String.eqb s EmptyString)
  | Some (JArray _) | Some (JObject _) => true
  end.

(** Line 53: [config.zoom || h.maxZoom - 2]. *)
Definition view_zoom (config : list (string * Json)) (maxZoom : Z) : Json :=
  match property "zoom" config with
  | Some zoom => if property_truthy (Some zoom) then zoom else JNumber (maxZoom - 2)
  | None => JNumber (maxZoom - 2)
  end.

(** Line 54: [config.center || [h.centerLon, h.centerLat]].  The
    coordinates of the header are not interpreted. *)
Definition view_center {Coordinates : Type} (config : list (string * Json))
    (header_center : Coordinates) : Json + Coordinates :=
  match property "center" config with
  | Some center => if property_truthy (Some center) then inl center else inr header_center
  | None => inr header_center
  end.

End Frontend.

(** * Checks of the string functions *)

Example includes_json :
  includes "application/json" "text/html, application/json;q=0.9" = true.
Proof. reflexivity. Qed.

Example encode_reserved :
  encodeURIComponent "https://h/a b?x=1&y=2" = "https%3A%2F%2Fh%2Fa%20b%3Fx%3D1%26y%3D2".
Proof. reflexivity. Qed.

Example decode_reserved :
  decodeURIComponent "https%3A%2F%2Fh%2Fa%20b" = Some "https://h/a b".
Proof. reflexivity. Qed.

Example decode_two_byte :
  decodeURIComponent "caf%C3%A9" = Some (String.append "caf" (string_of_octets [195; 169])).
Proof. reflexivity. Qed.

Example decode_lone_percent : decodeURIComponent "100%" = None.
Proof. reflexivity. Qed.

Example decode_bad_continuation : decodeURIComponent "%C3x" = None.
Proof. reflexivity. Qed.

Example decode_overlong : decodeURIComponent "%C0%80" = None.
Proof. reflexivity. Qed.

Example base64_basic : base64 "id:secret" = "aWQ6c2VjcmV0".
Proof. reflexivity. Qed.

Example base64_padding : base64 "a" = "YQ==" /\ base64 "ab" = "YWI=".
Proof. split; reflexivity. Qed.

(** * Properties *)

Ltac run :=
  repeat (unfold mbind, mret, Task_bind, Task_ret, try_catch, throw, console,
          emit, now, get_accessToken, get_tokenExpiry, set_accessToken,
          set_tokenExpiry, update_res, axios_post, fetch, after;
          simpl).

(** ** Counting in traces *)

Lemma posts_app tr1 tr2 : posts (tr1 ++ tr2) = (posts tr1 + posts tr2)%nat.
Proof. unfold posts. by rewrite filter_app, length_app. Qed.

Lemma gets_app tr1 tr2 : gets (tr1 ++ tr2) = (gets tr1 + gets tr2)%nat.
Proof. unfold gets. by rewrite filter_app, length_app. Qed.

Lemma fetch_outcomes_app tr1 tr2 :
  fetch_outcomes (tr1 ++ tr2) = fetch_outcomes tr1 ++ fetch_outcomes tr2.
Proof. apply omap_app. Qed.

Lemma fetch_invocations_app tr1 tr2 :
  fetch_invocations (tr1 ++ tr2) = (fetch_invocations tr1 + fetch_invocations tr2)%nat.
Proof. unfold fetch_invocations. by rewrite fetch_outcomes_app, length_app. Qed.

Lemma upstream_exchanges_app tr1 tr2 :
  upstream_exchanges (tr1 ++ tr2) = upstream_exchanges tr1 ++ upstream_exchanges tr2.
Proof. apply omap_app. Qed.

Lemma latest_grant_app tr1 tr2 :
  latest_grant (tr1 ++ tr2)
  = match latest_grant tr2 with
    | Some data => Some data
    | None => latest_grant tr1
    end.
Proof. unfold latest_grant. by rewrite fetch_outcomes_app, omap_app, last_app. Qed.

(** ** One run of [fetchDatabricksToken] *)

Lemma fetch_trace cfg env w :
  trace (after (fetchDatabricksToken cfg) env w)
  = trace w ++ fetch_events cfg (next_reply env w).
Proof.
  unfold fetchDatabricksToken, fetch_events, next_reply. fold (missing_config cfg).
  destruct (missing_config cfg); run; [done|].
  destruct (identity env (posts (trace w))) as [|status [data|]]; run;
    try destruct (status_2xx status); run; by rewrite <- ?app_assoc.
Qed.

Lemma fetch_failure cfg env w :
  (if missing_config cfg then None else granted (next_reply env w)) = None →
  fst (fetchDatabricksToken cfg env w) = Normal JsNull
  ∧ token_state (after (fetchDatabricksToken cfg) env w) = token_state w
  ∧ ticks (after (fetchDatabricksToken cfg) env w) = ticks w.
Proof.
  unfold fetchDatabricksToken, next_reply, granted. fold (missing_config cfg).
  destruct (missing_config cfg); run; [done|].
  destruct (identity env (posts (trace w))) as [|status [data|]]; run;
    try destruct (status_2xx status); run; done.
Qed.

Lemma fetch_success cfg env w data :
  missing_config cfg = false →
  granted (next_reply env w) = Some data →
  fst (fetchDatabricksToken cfg env w) = Normal (access_token data)
  ∧ accessToken (after (fetchDatabricksToken cfg) env w) = access_token data
  ∧ tokenExpiry (after (fetchDatabricksToken cfg) env w)
    = Some (clockAt env (ticks w) + expiresIn_of data * 1000)
  ∧ ticks (after (fetchDatabricksToken cfg) env w) = S (ticks w).
Proof.
  unfold fetchDatabricksToken, next_reply, granted. fold (missing_config cfg).
  intros -> Hg. run.
  destruct (identity env (posts (trace w))) as [|status [d|]]; try done.
  destruct (status_2xx status); [|done]. injection Hg as ->. run. done.
Qed.

Lemma fetch_res cfg env w : res (after (fetchDatabricksToken cfg) env w) = res w.
Proof.
  unfold fetchDatabricksToken. fold (missing_config cfg).
  destruct (missing_config cfg); run; [done|].
  destruct (identity env (posts (trace w))) as [|status [data|]]; run;
    try destruct (status_2xx status); run; done.
Qed.

Lemma fetch_returns cfg env w : ∃ v, fst (fetchDatabricksToken cfg env w) = Normal v.
Proof.
  unfold fetchDatabricksToken. fold (missing_config cfg).
  destruct (missing_config cfg); run; [by eexists|].
  destruct (identity env (posts (trace w))) as [|status [data|]]; run;
    try destruct (status_2xx status); run; by eexists.
Qed.

Lemma fetch_fails_no_grant cfg reply :
  fetch_fails cfg reply →
  (if missing_config cfg then None else granted reply) = None.
Proof.
  intros [Hm | -> | status data -> Hs]; destruct (missing_config cfg); try done.
  simpl. destruct data; by rewrite ?Hs.
Qed.

Lemma fetch_events_outcomes cfg reply :
  fetch_outcomes (fetch_events cfg reply)
  = [if missing_config cfg then None else granted reply].
Proof.
  unfold fetch_events, fetch_outcomes. destruct (missing_config cfg); [reflexivity|].
  simpl. by destruct (granted reply).
Qed.

Lemma fetch_events_posts cfg reply :
  posts (fetch_events cfg reply) = if missing_config cfg then 0%nat else 1%nat.
Proof.
  unfold fetch_events. destruct (missing_config cfg); [reflexivity|].
  by destruct (granted reply).
Qed.

Lemma fetch_events_exchanges cfg reply : upstream_exchanges (fetch_events cfg reply) = [].
Proof.
  unfold fetch_events. destruct (missing_config cfg); [reflexivity|].
  by destruct (granted reply).
Qed.

(** ** One call of [getValidAccessToken] *)

Lemma token_is_stale_spec env w :
  token_is_stale env w
  = (Normal (negb (fresh env w)), if reads_clock w then tick w else w).
Proof.
  unfold token_is_stale, fresh, reads_clock. run.
  destruct (truthy (accessToken w)); [|done]. simpl.
  destruct (tokenExpiry w) as [e|]; [|done]. run.
  by rewrite negb_involutive.
Qed.

Lemma fresh_reads_clock env w : fresh env w = true → reads_clock w = true.
Proof.
  unfold fresh, reads_clock.
  by destruct (truthy (accessToken w)), (tokenExpiry w).
Qed.

Lemma getValid_fresh cfg env w :
  fresh env w = true →
  getValidAccessToken cfg env w = (Normal (accessToken w), tick w).
Proof.
  intros Hfresh. unfold getValidAccessToken, mbind, Task_bind.
  by rewrite token_is_stale_spec, Hfresh, (fresh_reads_clock env w Hfresh).
Qed.

Lemma getValid_stale cfg env w :
  fresh env w = false →
  getValidAccessToken cfg env w
  = (Normal (accessToken (after (fetchDatabricksToken cfg) env (announced w))),
     after (fetchDatabricksToken cfg) env (announced w)).
Proof.
  intros Hfresh. unfold getValidAccessToken, mbind, Task_bind.
  rewrite token_is_stale_spec, Hfresh. simpl.
  destruct (fetch_returns cfg env (announced w)) as [v Hv]. revert Hv.
  unfold after, announced.
  destruct (reads_clock w); simpl;
    destruct (fetchDatabricksToken cfg env _) as [[v'|err] w2]; by simpl.
Qed.

Lemma trace_announced w :
  trace (announced w)
  = trace w ++ [Console Log "Token expired or expiring soon, fetching new token..."].
Proof. reflexivity. Qed.

Lemma fetch_events_invocations cfg reply :
  fetch_invocations (fetch_events cfg reply) = 1%nat.
Proof. unfold fetch_invocations. by rewrite fetch_events_outcomes. Qed.

Lemma next_reply_announced env w : next_reply env (announced w) = next_reply env w.
Proof. unfold next_reply, announced. simpl. by rewrite posts_app, Nat.add_0_r. Qed.

(** What a call leaves behind, fresh or stale. *)
Lemma getValid_outcome cfg env w :
  ∃ events,
    getValidAccessToken cfg env w
    = (Normal (accessToken (after (getValidAccessToken cfg) env w)),
       after (getValidAccessToken cfg) env w)
    ∧ trace (after (getValidAccessToken cfg) env w) = trace w ++ events
    ∧ upstream_exchanges events = []
    ∧ res (after (getValidAccessToken cfg) env w) = res w.
Proof.
  destruct (fresh env w) eqn:Hfresh.
  - exists []. unfold after. rewrite (getValid_fresh cfg env w Hfresh). simpl.
    by rewrite app_nil_r.
  - exists (Console Log "Token expired or expiring soon, fetching new token..."
            :: fetch_events cfg (next_reply env w)).
    unfold after at 1 2 3 4. rewrite (getValid_stale cfg env w Hfresh). simpl.
    rewrite fetch_trace, fetch_res, next_reply_announced. simpl.
    rewrite <- app_assoc. repeat split; try done.
    unfold upstream_exchanges. simpl. apply fetch_events_exchanges.
Qed.

(** ** The token manager *)

(** C3.  A run of [fetchDatabricksToken] that fails, because the
    configuration is incomplete, because the identity endpoint could not
    be reached, or because it answered with a status outside 200..299,
    returns no token ([null]) and leaves the Token State, the cached
    token and its expiry, exactly as it was. *)
Theorem fetchDatabricksToken_failure_keeps_token_state cfg env w :
  fetch_fails cfg (next_reply env w) →
  fst (fetchDatabricksToken cfg env w) = Normal JsNull
  ∧ token_state (after (fetchDatabricksToken cfg) env w) = token_state w.
Proof.
  intros Hfails.
  destruct (fetch_failure cfg env w) as (Hreturn & Hstate & _);
    [by apply fetch_fails_no_grant|done].
Qed.

(** A refresh that meets an unreachable identity endpoint keeps the token
    of the start-up. *)
Lemma fetchDatabricksToken_failure_keeps_token_state_witness :
  fst (fetchDatabricksToken demo_cfg (scenario 0 NoResponse FetchRejected)
         (started (scenario 0 NoResponse FetchRejected))) = Normal JsNull
  ∧ token_state (after (fetchDatabricksToken demo_cfg) (scenario 0 NoResponse FetchRejected)
                   (started (scenario 0 NoResponse FetchRejected)))
    = (JsString "T1", Some 3600000).
Proof.
  apply (fetchDatabricksToken_failure_keeps_token_state demo_cfg
           (scenario 0 NoResponse FetchRejected)
           (started (scenario 0 NoResponse FetchRejected))).
  apply fails_network_error. vm_compute. reflexivity.
Defined.

(** C1, amended.  A call of [getValidAccessToken] returns the token that
    is cached when it returns.  If a token is cached and its expiry is at
    least five minutes ahead, nothing is fetched: the trace and the Token
    State stay as they are, so the cached token is returned.  Otherwise
    [fetchDatabricksToken] runs exactly once, with one POST when the
    configuration is complete and none when it is not; if that fetch
    fails the Token State is untouched, so the call returns the previous
    token, expired or absent as it may be; if it succeeds the call
    returns the new token.  In particular, when a call has fetched a
    non-empty token that lives at least six minutes, a second call whose
    clock reading is within a minute of the fetch fetches nothing: the two
    calls make exactly one POST and return the same token. *)
Theorem getValidAccessToken_refresh_rule cfg env w :
  let w' := after (getValidAccessToken cfg) env w in
  fst (getValidAccessToken cfg env w) = Normal (accessToken w')
  ∧ (fresh env w = true →
       trace w' = trace w ∧ token_state w' = token_state w)
  ∧ (fresh env w = false →
       fetch_invocations (trace w') = S (fetch_invocations (trace w))
       ∧ posts (trace w') = (posts (trace w) + if missing_config cfg then 0 else 1)%nat
       ∧ (fetch_fails cfg (next_reply env w) → token_state w' = token_state w)
       ∧ (∀ data, missing_config cfg = false →
                  granted (next_reply env w) = Some data →
                  accessToken w' = access_token data))
  ∧ (∀ data,
       fresh env w = false →
       missing_config cfg = false →
       granted (next_reply env w) = Some data →
       truthy (access_token data) = true →
       360 ≤ expiresIn_of data →
       clockAt env (ticks w') ≤ clockAt env (ticks (announced w)) + 60 * 1000 →
       let w'' := after (getValidAccessToken cfg) env w' in
       fst (getValidAccessToken cfg env w') = Normal (access_token data)
       ∧ posts (trace w'') = S (posts (trace w))).
Proof.
  intros w'.
  assert (Hstale : fresh env w = false →
            w' = after (fetchDatabricksToken cfg) env (announced w)).
  { intros Hf. unfold w', after at 1. by rewrite (getValid_stale cfg env w Hf). }
  split; [|split; [|split]].
  - destruct (getValid_outcome cfg env w) as (events & Hcall & _).
    unfold w'. by rewrite Hcall at 1.
  - intros Hf. unfold w', after. by rewrite (getValid_fresh cfg env w Hf).
  - intros Hf.
    rewrite (Hstale Hf), fetch_trace, next_reply_announced, trace_announced.
    rewrite !fetch_invocations_app, !posts_app.
    rewrite fetch_events_invocations, fetch_events_posts.
    change (fetch_invocations [_]) with 0%nat. change (posts [_]) with 0%nat.
    split; [lia|]. split; [lia|]. split.
    + intros Hfails. apply fetch_fails_no_grant in Hfails.
      rewrite <- next_reply_announced in Hfails.
      by destruct (fetch_failure cfg env (announced w) Hfails) as (_ & Hstate & _).
    + intros data Hcfg Hgrant. rewrite <- next_reply_announced in Hgrant.
      by destruct (fetch_success cfg env (announced w) data Hcfg Hgrant) as (_ & Htok & _).
  - intros data Hf Hcfg Hgrant Htruthy Hlife Hsoon w''.
    assert (Hgrant' := Hgrant). rewrite <- next_reply_announced in Hgrant'.
    destruct (fetch_success cfg env (announced w) data Hcfg Hgrant')
      as (_ & Htok & Hexpiry & Hticks).
    rewrite <- (Hstale Hf) in Htok, Hexpiry, Hticks.
    assert (Hfresh' : fresh env w' = true).
    { unfold fresh. rewrite Htok, Htruthy, Hexpiry. cbn [andb].
      apply negb_true_iff, Z.ltb_ge. lia. }
    unfold w''. unfold after at 1. rewrite (getValid_fresh cfg env w' Hfresh'). simpl.
    rewrite Htok. split; [done|].
    rewrite (Hstale Hf), fetch_trace, next_reply_announced, trace_announced.
    rewrite !posts_app, fetch_events_posts, Hcfg.
    change (posts [_]) with 0%nat. lia.
Qed.

(** From the empty state the first call fetches [hour_token] and a
    second call a minute later reuses it; at the start-up state a call a
    minute later fetches nothing. *)
Lemma getValidAccessToken_refresh_rule_witness :
  (fst (getValidAccessToken demo_cfg minute_env
          (after (getValidAccessToken demo_cfg) minute_env initial))
   = Normal (JsString "T1")
   ∧ posts (trace (after (getValidAccessToken demo_cfg) minute_env
                     (after (getValidAccessToken demo_cfg) minute_env initial))) = 1%nat)
  ∧ fetch_invocations (trace (after (getValidAccessToken demo_cfg) minute_env initial)) = 1%nat
  ∧ trace (after (getValidAccessToken demo_cfg) minute_env (started minute_env))
    = trace (started minute_env).
Proof.
  split; [|split].
  - destruct (getValidAccessToken_refresh_rule demo_cfg minute_env initial)
      as (_ & _ & _ & Htwice).
    apply (Htwice hour_token); vm_compute; congruence.
  - destruct (getValidAccessToken_refresh_rule demo_cfg minute_env initial)
      as (_ & _ & Hstale & _).
    destruct Hstale as (Honce & _); [reflexivity|exact Honce].
  - destruct (getValidAccessToken_refresh_rule demo_cfg minute_env (started minute_env))
      as (_ & Hfresh & _).
    destruct Hfresh as (Htrace & _); [vm_compute; reflexivity|exact Htrace].
Defined.

(** C1 as stated fails when the expiry is exactly five minutes ahead:
    the token granted at time 0 expires at 3 600 000, the call comes at
    3 300 000, so the expiry is not more than five minutes in the future,
    and yet the call returns the cached token without fetching. *)
Lemma getValidAccessToken_boundary_counterexample :
  more_than_five_minutes_left boundary_env (started boundary_env) = false
  ∧ fetch_invocations (trace (after (getValidAccessToken demo_cfg) boundary_env
                                (started boundary_env)))
    = fetch_invocations (trace (started boundary_env))
  ∧ ¬ refreshes_as_specified demo_cfg boundary_env (started boundary_env).
Proof.
  split; [vm_compute; reflexivity|]. split; [vm_compute; reflexivity|].
  intros [_ Hotherwise]. specialize (Hotherwise eq_refl).
  vm_compute in Hotherwise. discriminate.
Qed.

(** ** The cached token over the life of the process *)

Section Preservation.
Variable I : World → Prop.

Lemma preserves_ret {A} (a : A) : preserves I (mret a : Task A).
Proof. by intros env w HI. Qed.

Lemma preserves_throw {A} (e : JsError) : preserves I (throw e : Task A).
Proof. by intros env w HI. Qed.

Lemma preserves_bind {A B} (m : Task A) (k : A → Task B) :
  preserves I m → (∀ a, preserves I (k a)) → preserves I (m ≫= k).
Proof.
  intros Hm Hk env w HI. specialize (Hm env w HI). revert Hm.
  unfold after, mbind, Task_bind.
  destruct (m env w) as [[a|e] w1]; simpl; [apply Hk|done].
Qed.

Lemma preserves_try_catch {A} (body : Task A) (handler : JsError → Task A) :
  preserves I body → (∀ e, preserves I (handler e)) →
  preserves I (try_catch body handler).
Proof.
  intros Hbody Hhandler env w HI. specialize (Hbody env w HI). revert Hbody.
  unfold after, try_catch.
  destruct (body env w) as [[a|e] w1]; simpl; [done|apply Hhandler].
Qed.
End Preservation.

Lemma token_matches_emit e :
  outcome_of e = None → preserves token_matches (emit e).
Proof.
  intros He env w Hw. unfold token_matches, after, emit in *. simpl.
  rewrite latest_grant_app. unfold latest_grant at 1, fetch_outcomes. simpl.
  by rewrite He.
Qed.

Lemma token_matches_log text : preserves token_matches (console Log text).
Proof. by apply token_matches_emit. Qed.

Lemma token_matches_error text :
  String.eqb text missing_message = false →
  preserves token_matches (console Error text).
Proof. intros Htext. apply token_matches_emit. simpl. by rewrite Htext. Qed.

Lemma token_matches_update_res f : preserves token_matches (update_res f).
Proof. by intros env w Hw. Qed.

Lemma token_matches_now : preserves token_matches now.
Proof. by intros env w Hw. Qed.

Lemma token_matches_get_accessToken : preserves token_matches get_accessToken.
Proof. by intros env w Hw. Qed.

Lemma token_matches_get_tokenExpiry : preserves token_matches get_tokenExpiry.
Proof. by intros env w Hw. Qed.

Lemma token_matches_fetch url headers : preserves token_matches (fetch url headers).
Proof.
  intros env w Hw. unfold fetch, after.
  pose proof (token_matches_emit
                (UpstreamGet url headers (remote env (gets (trace w)) url headers))
                eq_refl env w Hw) as Hemit.
  unfold after in Hemit. by destruct (remote env _ url headers).
Qed.

Lemma latest_grant_fetch_events cfg reply :
  latest_grant (fetch_events cfg reply)
  = if missing_config cfg then None else granted reply.
Proof.
  unfold latest_grant. rewrite fetch_events_outcomes. simpl.
  by destruct (if missing_config cfg then None else granted reply).
Qed.

Lemma token_matches_fetchDatabricksToken cfg :
  preserves token_matches (fetchDatabricksToken cfg).
Proof.
  intros env w Hw. unfold token_matches in *.
  rewrite fetch_trace, latest_grant_app, latest_grant_fetch_events.
  destruct (if missing_config cfg then None else granted (next_reply env w))
    as [data|] eqn:Hgrant.
  - destruct (missing_config cfg) eqn:Hcfg; [done|].
    destruct (fetch_success cfg env w data Hcfg Hgrant) as (_ & Htok & _).
    exact Htok.
  - destruct (fetch_failure cfg env w Hgrant) as (_ & Hstate & _).
    injection Hstate as Htok _. by rewrite Htok.
Qed.

Ltac preserve_step :=
  first
    [ apply preserves_bind
    | apply preserves_try_catch
    | apply preserves_ret
    | apply preserves_throw
    | apply token_matches_log
    | apply token_matches_error; reflexivity
    | apply token_matches_update_res
    | apply token_matches_now
    | apply token_matches_get_accessToken
    | apply token_matches_get_tokenExpiry
    | apply token_matches_fetch
    | apply token_matches_fetchDatabricksToken
    | match goal with
      | |- ∀ _, _ => intro
      | |- preserves _ (if ?b then _ else _) => destruct b
      | |- preserves _ (match ?x with _ => _ end) => destruct x
      end ].

Lemma token_matches_pump cs broken : preserves token_matches (pump cs broken).
Proof.
  induction cs as [|c cs IH]; simpl.
  - repeat preserve_step.
  - apply preserves_bind; [apply token_matches_update_res|intros _; exact IH].
Qed.

Ltac preserve := repeat first [apply token_matches_pump | preserve_step].

Lemma token_matches_getValidAccessToken cfg :
  preserves token_matches (getValidAccessToken cfg).
Proof. unfold getValidAccessToken, token_is_stale. preserve. Qed.

Lemma token_matches_perform cfg a : preserves token_matches (perform cfg a).
Proof.
  destruct a; simpl; unfold proxy_pmtiles, forward, options_pmtiles, api_config;
    preserve; try apply token_matches_getValidAccessToken; preserve.
Qed.

Lemma reachable_token_matches cfg env w : reachable cfg env w → token_matches w.
Proof.
  induction 1 as [|w a Hw IH]; [reflexivity|].
  by apply token_matches_perform.
Qed.

(** C2, amended.  In every reachable state the cached token is the
    [access_token] of the most recent successful token fetch since the
    process started, and [null] when there has been none; a failed fetch
    does not clear it.  So the token is absent exactly when no fetch has
    succeeded since the start, or the most recent successful one carried
    no token or an empty one. *)
Theorem cached_token_is_latest_grant cfg env w :
  reachable cfg env w →
  accessToken w = token_of_grant (latest_grant (trace w))
  ∧ (truthy (accessToken w) = false
     ↔ match latest_grant (trace w) with
       | Some data => truthy (access_token data) = false
       | None => True
       end).
Proof.
  intros Hw. apply reachable_token_matches in Hw. split; [exact Hw|].
  rewrite Hw. by destruct (latest_grant (trace w)).
Qed.

(** After the start-up and a refresh that failed, the token of the
    start-up is the cached one. *)
Lemma cached_token_is_latest_grant_witness :
  accessToken (after (perform demo_cfg (GetProxy range_request)) outage_env
                 (started outage_env))
  = JsString "T1".
Proof.
  destruct (cached_token_is_latest_grant demo_cfg outage_env
              (after (perform demo_cfg (GetProxy range_request)) outage_env
                 (started outage_env))) as [Htoken _].
  - apply reachable_step, reachable_step, reachable_initial.
  - rewrite Htoken. vm_compute. reflexivity.
Defined.

(** C2 as stated fails after a failed refresh.  The start-up fetch
    succeeds at time 0; a proxy request at 3 400 000 finds the token
    within five minutes of its expiry and refreshes, the identity
    endpoint cannot be reached, and the token of the start-up stays
    cached although no fetch has succeeded since that failure. *)
Lemma failed_refresh_keeps_token_counterexample :
  reachable demo_cfg outage_env
    (after (perform demo_cfg (GetProxy range_request)) outage_env (started outage_env))
  ∧ last (fetch_outcomes
            (trace (after (perform demo_cfg (GetProxy range_request)) outage_env
                      (started outage_env)))) = Some None
  ∧ truthy (accessToken (after (perform demo_cfg (GetProxy range_request)) outage_env
                           (started outage_env))) = true
  ∧ ¬ absent_iff_no_success_since_failure
        (after (perform demo_cfg (GetProxy range_request)) outage_env (started outage_env)).
Proof.
  split; [apply reachable_step, reachable_step, reachable_initial|].
  split; [vm_compute; reflexivity|]. split; [vm_compute; reflexivity|].
  intros [_ Habsent].
  assert (Hfalse : truthy (accessToken (after (perform demo_cfg (GetProxy range_request))
                                          outage_env (started outage_env))) = false).
  { apply Habsent. intros [data Hlast]. vm_compute in Hlast. discriminate. }
  vm_compute in Hfalse. discriminate.
Qed.

(** ** The proxy *)

Arguments forward_response_headers : simpl never.
Arguments stream_response : simpl never.
Arguments pump : simpl never.

Lemma pump_spec cs broken env w :
  pump cs broken env w
  = (Normal (),
     with_events (if broken then [Console Error "Streaming error:"] else [])
       (with_res (pumped cs broken (res w)) w)).
Proof.
  revert w. induction cs as [|c cs IH]; intros w.
  - destruct broken; unfold with_events, with_res; simpl; run; [done|].
    by rewrite app_nil_r.
  - change (pump (c :: cs) broken)
      with (update_res (res_write c);; pump cs broken).
    run. by rewrite IH.
Qed.

Lemma forward_response_headers_spec response env w :
  forward_response_headers response env w
  = (Normal (), with_res (head_on response (res w)) w).
Proof.
  unfold forward_response_headers, head_on, copy_if_truthy, with_res.
  destruct (truthy (headers_get "content-range" response)),
           (truthy (headers_get "content-length" response)),
           (truthy (headers_get "accept-ranges" response)),
           (up_status response =? 206); reflexivity.
Qed.

(** *** Sending JSON *)

Lemma res_json_spec req body env w :
  res_json req body env w
  = (Normal (),
     with_res (send_json (req_fresh env req (res w) body) body (res w)) w).
Proof. reflexivity. Qed.

Lemma head_on_sent response r : headersSent (head_on response r) = headersSent r.
Proof.
  unfold head_on, copy_if_truthy.
  by destruct (truthy (headers_get "content-range" response)),
              (truthy (headers_get "content-length" response)),
              (truthy (headers_get "accept-ranges" response)).
Qed.

(** An answer with an error status is never fresh: it goes out with its
    body whatever the request says. *)
Lemma req_fresh_error env req r body code :
  headersSent r = false →
  code = 400 ∨ code = 500 →
  req_fresh env req (res_status code r) body = false.
Proof.
  intros Hsent Hcode. unfold req_fresh, res_status. cbn [statusCode].
  rewrite Hsent. by destruct Hcode as [-> | ->].
Qed.

(** The first thing done to a response object: the body under status
    200, unless the request is conditional and fresh. *)
Lemma send_json_first env req body :
  send_json (req_fresh env req fresh_res body) body fresh_res
  = if revalidated env req body then not_modified else json_response body.
Proof.
  unfold req_fresh, revalidated. change (statusCode fresh_res) with 200. simpl.
  by destruct (conditional req && freshness env req body).
Qed.

Arguments res_json : simpl never.
Arguments req_fresh : simpl never.
Arguments send_json : simpl never.
Arguments head_on : simpl never.

(** A request with a URL that is not a metadata probe enters the [try]. *)
Lemma proxy_enters_try cfg env w req :
  truthy (query_url req) = true →
  isTileJsonRequest req = false →
  proxy_pmtiles cfg req env w
  = try_catch (forward cfg req (target_url req))
      (λ error,
         console Error "Proxy error:";;
         update_res (res_status 500);;
         res_json req (JObject [("error", JStr "Failed to fetch PMTiles file")]))
      env (arrived req w).
Proof.
  intros Hurl Htile. unfold proxy_pmtiles, arrived, target_url.
  rewrite Hurl, Htile. unfold mbind, Task_bind, update_res, console, emit. simpl.
  destruct (decodeURIComponent (template (query_url req))); simpl;
    by rewrite <- app_assoc.
Qed.

(** The whole of a byte-range request: one upstream request, then the
    response that its outcome calls for. *)
Lemma proxy_byte_range cfg env w req :
  truthy (query_url req) = true →
  isTileJsonRequest req = false →
  let w' := after (proxy_pmtiles cfg req) env w in
  let w1 := authorised cfg env req w in
  let outcome := upstream_outcome cfg env req w in
  trace w'
  = trace w1
    ++ [Console Log (if truthy (accessToken w1)
                     then "Using Databricks auth token for PMTiles request"
                     else "No auth token available for PMTiles request");
        Console Log "Fetching URL with headers:";
        UpstreamGet (target_url req) (request_headers cfg env req w) outcome]
    ++ closing_events outcome
  ∧ res w' = proxy_response outcome
  ∧ token_state w' = token_state w1.
Proof.
  intros Hurl Htile w' w1 outcome.
  unfold w', after. rewrite (proxy_enters_try cfg env w req Hurl Htile).
  unfold outcome, upstream_outcome, request_headers, upstream_headers.
  fold w1.
  destruct (getValid_outcome cfg env (arrived req w)) as (events & Hcall & _ & _ & Hres).
  fold (authorised cfg env req w) in Hcall, Hres. fold w1 in Hcall, Hres.
  change (res (arrived req w)) with fresh_res in Hres.
  unfold try_catch, forward, mbind, Task_bind. rewrite Hcall.
  clearbody w1. clear Hcall w' outcome.
  assert (Hgets : ∀ a b, gets (trace w1 ++ [Console Log a; Console Log b]) = gets (trace w1)).
  { intros a b. rewrite gets_app. change (gets [_; _]) with 0%nat. lia. }
  unfold proxy_response, closing_events, success_head.
  destruct (truthy (accessToken w1)); run; rewrite <- !app_assoc; simpl;
    rewrite Hgets;
    (destruct (remote env (gets (trace w1)) (target_url req) _) as [|response];
     [run; rewrite <- !app_assoc, Hres; by simpl|]);
    (destruct (response_ok response); run;
     [|rewrite <- !app_assoc, Hres; by simpl]);
    rewrite forward_response_headers_spec; unfold stream_response; run;
    (destruct (up_body response) as [body|]; run);
    rewrite ?pump_spec; simpl; rewrite <- ?app_assoc, ?Hres;
    try (destruct (broken body)); simpl; rewrite ?app_nil_r;
    rewrite ?res_json_spec; simpl;
    rewrite ?req_fresh_error by (rewrite ?head_on_sent; auto);
    repeat split; done.
Qed.

Lemma closing_events_exchanges outcome : upstream_exchanges (closing_events outcome) = [].
Proof.
  destruct outcome as [|response]; [reflexivity|]. simpl.
  destruct (response_ok response); [|reflexivity].
  destruct (up_body response) as [body|]; [|reflexivity]. by destruct (broken body).
Qed.

Lemma authorised_exchanges cfg env req w :
  upstream_exchanges (trace (authorised cfg env req w)) = upstream_exchanges (trace w).
Proof.
  unfold authorised.
  destruct (getValid_outcome cfg env (arrived req w)) as (events & _ & -> & Hnone & _).
  rewrite upstream_exchanges_app, Hnone, app_nil_r.
  unfold arrived. simpl. by rewrite upstream_exchanges_app, app_nil_r.
Qed.

(** A byte-range request makes exactly one upstream request. *)
Lemma proxy_byte_range_exchanges cfg env w req :
  truthy (query_url req) = true →
  isTileJsonRequest req = false →
  upstream_exchanges (trace (after (proxy_pmtiles cfg req) env w))
  = upstream_exchanges (trace w)
    ++ [(target_url req, request_headers cfg env req w, upstream_outcome cfg env req w)].
Proof.
  intros Hurl Htile.
  destruct (proxy_byte_range cfg env w req Hurl Htile) as (-> & _).
  rewrite !upstream_exchanges_app, closing_events_exchanges, authorised_exchanges.
  by rewrite app_nil_r.
Qed.

Lemma truthy_string s : s ≠ EmptyString → truthy (JsString s) = true.
Proof. intros Hs. simpl. apply negb_true_iff. by apply String.eqb_neq. Qed.

(** *** The response to a successful upstream fetch *)

Lemma written_status cs r : statusCode (fold_left (λ r c, res_write c r) cs r) = statusCode r.
Proof. revert r. induction cs as [|c cs IH]; intros r; simpl; [done|by rewrite IH]. Qed.

Lemma written_headers cs r : resHeaders (fold_left (λ r c, res_write c r) cs r) = resHeaders r.
Proof. revert r. induction cs as [|c cs IH]; intros r; simpl; [done|by rewrite IH]. Qed.

Lemma written_sent cs r :
  cs ≠ [] → headersSent (fold_left (λ r c, res_write c r) cs r) = true.
Proof.
  destruct cs as [|c cs]; [done|]. intros _. simpl.
  generalize (res_write c r), (eq_refl : headersSent (res_write c r) = true).
  induction cs as [|c' cs IH]; intros r' Hr'; simpl; [done|]. by apply IH.
Qed.

Lemma written_payload cs r :
  payload (fold_left (λ r c, res_write c r) cs r)
  = match cs, payload r with
    | [], p => p
    | _, StreamPayload written => StreamPayload (written ++ cs)
    | _, _ => StreamPayload cs
    end.
Proof.
  revert r. induction cs as [|c cs IH]; intros r; simpl; [done|].
  rewrite IH. simpl. destruct cs as [|c' cs]; [by destruct (payload r)|].
  destruct (payload r); simpl; by rewrite <- ?app_assoc.
Qed.

Lemma pumped_status body r :
  starts_streaming body = true →
  statusCode (pumped (chunks body) (broken body) r) = statusCode r.
Proof.
  unfold starts_streaming, pumped. destruct (broken body); simpl.
  - intros Hchunks. apply negb_true_iff, bool_decide_eq_false in Hchunks.
    by rewrite (written_sent _ r Hchunks), written_status.
  - intros _. apply written_status.
Qed.

Lemma pumped_headers cs broken r : resHeaders (pumped cs broken r) = resHeaders r.
Proof. unfold pumped. destruct broken; simpl; apply written_headers. Qed.

Lemma pumped_payload cs broken r :
  payload r = NoPayload → payload (pumped cs broken r) = StreamPayload cs.
Proof.
  intros Hr. unfold pumped.
  assert (payload (fold_left (λ r c, res_write c r) cs r)
          = match cs with [] => NoPayload | _ => StreamPayload cs end) as Hw.
  { rewrite written_payload, Hr. by destruct cs. }
  destruct broken; simpl; rewrite Hw; by destruct cs.
Qed.

Lemma headers_get_nonempty name response :
  (if truthy (headers_get name response)
   then Some (template (headers_get name response)) else None)
  = nonempty (up_headers response !! name).
Proof.
  unfold headers_get, nonempty.
  destruct (up_headers response !! name) as [v|]; simpl; [|done].
  by destruct (String.eqb v EmptyString).
Qed.

Lemma success_head_headers response :
  let h := resHeaders (success_head response) in
  h !! "Content-Range" = nonempty (up_headers response !! "content-range")
  ∧ h !! "Content-Length" = nonempty (up_headers response !! "content-length")
  ∧ h !! "Accept-Ranges" = nonempty (up_headers response !! "accept-ranges")
  ∧ h !! "Content-Type" = Some "application/octet-stream"
  ∧ h !! "Access-Control-Allow-Origin" = Some "*"
  ∧ h !! "Access-Control-Allow-Methods" = Some "GET, HEAD, OPTIONS"
  ∧ h !! "Access-Control-Allow-Headers" = Some "Range, Authorization".
Proof.
  rewrite <- !headers_get_nonempty.
  unfold success_head, head_on, copy_if_truthy.
  destruct (truthy (headers_get "content-range" response)),
           (truthy (headers_get "content-length" response)),
           (truthy (headers_get "accept-ranges" response));
    simpl; repeat split;
    repeat first [ rewrite lookup_insert_eq | rewrite lookup_insert_ne by done ];
    done.
Qed.

Lemma success_head_status response :
  statusCode (success_head response) = if up_status response =? 206 then 206 else 200.
Proof.
  unfold success_head, head_on, copy_if_truthy.
  by destruct (truthy (headers_get "content-range" response)),
              (truthy (headers_get "content-length" response)),
              (truthy (headers_get "accept-ranges" response)).
Qed.

Lemma success_head_payload response : payload (success_head response) = NoPayload.
Proof.
  unfold success_head, head_on, copy_if_truthy.
  by destruct (truthy (headers_get "content-range" response)),
              (truthy (headers_get "content-length" response)),
              (truthy (headers_get "accept-ranges" response)).
Qed.

Lemma success_head_sent response : headersSent (success_head response) = false.
Proof. unfold success_head. by rewrite head_on_sent. Qed.

Lemma pumped_status_any cs broken r :
  headersSent r = false →
  statusCode (pumped cs broken r)
  = if broken && bool_decide (cs = []) then 500 else statusCode r.
Proof.
  intros Hsent. unfold pumped. destruct broken; simpl; [|apply written_status].
  destruct cs as [|c cs].
  - simpl. by rewrite Hsent.
  - rewrite bool_decide_eq_false_2 by done.
    by rewrite (written_sent (c :: cs) r), written_status.
Qed.

Lemma pumped_ended cs broken r : ended (pumped cs broken r) = true.
Proof. unfold pumped. by destruct broken. Qed.


(** *** The claims about the proxy *)

(** C4.  A proxy request that carries a target URL and a Range header
    (with a value, which is how the handler tests for one) leads to
    exactly one upstream GET, to the decoded target URL, and the Range
    header of that request is the inbound value, character for character. *)
Theorem proxy_forwards_range_verbatim cfg env w req range :
  truthy (query_url req) = true →
  headers_range req = JsString range →
  range ≠ EmptyString →
  upstream_exchanges (trace (after (proxy_pmtiles cfg req) env w))
  = upstream_exchanges (trace w)
    ++ [(target_url req, request_headers cfg env req w, upstream_outcome cfg env req w)]
  ∧ request_headers cfg env req w !! "Range" = Some range.
Proof.
  intros Hurl Hrange Hvalue.
  assert (Htruthy : truthy (headers_range req) = true)
    by (rewrite Hrange; by apply truthy_string).
  split.
  - apply proxy_byte_range_exchanges; [done|].
    unfold isTileJsonRequest. by rewrite Htruthy.
  - unfold request_headers, upstream_headers, set_if_truthy.
    rewrite Htruthy, Hrange. apply lookup_insert_eq.
Qed.

Lemma proxy_forwards_range_verbatim_witness :
  request_headers demo_cfg serving_env range_request (started serving_env) !! "Range"
  = Some "bytes=0-3".
Proof.
  apply (proxy_forwards_range_verbatim demo_cfg serving_env (started serving_env)
           range_request "bytes=0-3"); [reflexivity|reflexivity|discriminate].
Defined.




(** *** Metadata probes *)

(** A metadata probe, from the test of line 95 alone. *)
Lemma proxy_probe cfg env w req :
  truthy (query_url req) = true →
  isTileJsonRequest req = true →
  after (proxy_pmtiles cfg req) env w
  = with_res (if revalidated env req (tilejson req (target_url req))
              then not_modified
              else json_response (tilejson req (target_url req)))
      (arrived req w).
Proof.
  intros Hurl Htile. unfold after, proxy_pmtiles. rewrite Hurl, Htile.
  unfold mbind, Task_bind, update_res, console, emit, target_url, arrived, with_res.
  simpl.
  destruct (decodeURIComponent (template (query_url req))); simpl;
    by rewrite send_json_first, <- !app_assoc.
Qed.

(** No Range header and an Accept header that mentions JSON make a
    probe. *)
Lemma probe_test req accept :
  truthy (headers_range req) = false →
  headers_accept req = JsString accept →
  includes "application/json" accept = true →
  isTileJsonRequest req = true.
Proof.
  intros Hrange Haccept Hjson.
  unfold isTileJsonRequest. rewrite Hrange, Haccept. simpl. rewrite Hjson.
  destruct accept; [discriminate Hjson|reflexivity].
Qed.

(** C6 as stated fails for a probe of a client that revalidates what it
    holds: the answer is a bare 304, with no descriptor in it. *)
Lemma conditional_probe_counterexample :
  truthy (headers_range (revalidating (probe_request "https://adb.example.net/f.pmtiles")))
  = false
  ∧ isTileJsonRequest (revalidating (probe_request "https://adb.example.net/f.pmtiles"))
    = true
  ∧ res (after (proxy_pmtiles demo_cfg
                  (revalidating (probe_request "https://adb.example.net/f.pmtiles")))
           serving_env initial)
    = not_modified
  ∧ ¬ descriptor_as_specified
        (res (after (proxy_pmtiles demo_cfg
                       (revalidating (probe_request "https://adb.example.net/f.pmtiles")))
                serving_env initial)).
Proof.
  split; [reflexivity|]. split; [reflexivity|]. split; [reflexivity|].
  intros (fields & tiles & Hpayload & _). vm_compute in Hpayload. discriminate.
Qed.

(** C6, amended.  A proxy request that carries a target URL, no Range
    header and an Accept header that mentions [application/json] is
    answered at once: with status 200 and the static descriptor (type
    vector, one tiles entry that points back at this proxy endpoint,
    minzoom 0 and maxzoom 14), unless the request is conditional and
    express finds it fresh against that descriptor, in which case the
    answer is a 304 without body.  Either way nothing is asked of the
    remote store or of the identity endpoint, and the Token State stays
    as it is. *)
Theorem proxy_metadata_probe cfg env w req accept :
  truthy (query_url req) = true →
  truthy (headers_range req) = false →
  headers_accept req = JsString accept →
  includes "application/json" accept = true →
  let w' := after (proxy_pmtiles cfg req) env w in
  let descriptor :=
    JObject [("type", JStr "vector");
             ("tiles", JArray [JStr (protocol req +:+ "://" +:+ template (host req)
                                     +:+ "/proxy/pmtiles?url=" +:+ target_url req)]);
             ("minzoom", JNumber 0);
             ("maxzoom", JNumber 14)] in
  res w'
  = (if conditional req && freshness env req descriptor
     then {| statusCode := 304; resHeaders := ∅; headersSent := true;
             payload := NoPayload; ended := true |}
     else {| statusCode := 200;
             resHeaders := {[ "Content-Type" := "application/json; charset=utf-8" ]};
             headersSent := true;
             payload := JsonPayload descriptor;
             ended := true |})
  ∧ upstream_exchanges (trace w') = upstream_exchanges (trace w)
  ∧ posts (trace w') = posts (trace w)
  ∧ fetch_invocations (trace w') = fetch_invocations (trace w)
  ∧ token_state w' = token_state w.
Proof.
  intros Hurl Hrange Haccept Hjson w' descriptor. unfold w'.
  rewrite (proxy_probe cfg env w req Hurl (probe_test req accept Hrange Haccept Hjson)).
  unfold with_res, arrived. cbn [res trace token_state accessToken tokenExpiry].
  rewrite upstream_exchanges_app, posts_app, fetch_invocations_app.
  split; [reflexivity|].
  destruct (decodeURIComponent (template (query_url req))); simpl;
    by rewrite app_nil_r, !Nat.add_0_r.
Qed.

Lemma proxy_metadata_probe_witness :
  advertised_tiles
    (payload (res (after (proxy_pmtiles demo_cfg (probe_request "https://adb.example.net/f.pmtiles"))
                     serving_env initial)))
  = Some "http://localhost:3000/proxy/pmtiles?url=https://adb.example.net/f.pmtiles"
  ∧ upstream_exchanges
      (trace (after (proxy_pmtiles demo_cfg (probe_request "https://adb.example.net/f.pmtiles"))
                serving_env initial)) = [].
Proof.
  destruct (proxy_metadata_probe demo_cfg serving_env initial
              (probe_request "https://adb.example.net/f.pmtiles") "application/json"
              eq_refl eq_refl eq_refl eq_refl)
    as (Hres & Hnone & _).
  split; [by rewrite Hres|exact Hnone].
Defined.

(** C7.  A GET of the proxy endpoint without a [url] query parameter
    (missing, or empty) is answered with status 400 and the JSON body
    [{error: URL parameter required}]; the only thing the handler does
    besides is to log one line, so no upstream request is made and the
    Token State stays as it is. *)
Theorem proxy_requires_url cfg env w req :
  truthy (query_url req) = false →
  let w' := after (proxy_pmtiles cfg req) env w in
  res w' = error_response 400 "URL parameter required"
  ∧ trace w' = trace w ++ [Console Log "Proxy request received for URL:"]
  ∧ upstream_exchanges (trace w') = upstream_exchanges (trace w)
  ∧ posts (trace w') = posts (trace w)
  ∧ token_state w' = token_state w.
Proof.
  intros Hurl w'. unfold w', after, proxy_pmtiles. rewrite Hurl.
  unfold mbind, Task_bind, update_res, console, emit. simpl.
  rewrite upstream_exchanges_app, posts_app. simpl.
  by rewrite app_nil_r, Nat.add_0_r.
Qed.

Lemma proxy_requires_url_witness :
  res (after (proxy_pmtiles demo_cfg urlless_request) serving_env (started serving_env))
  = error_response 400 "URL parameter required".
Proof.
  apply (proxy_requires_url demo_cfg serving_env (started serving_env) urlless_request).
  reflexivity.
Defined.

(** C8.  When the upstream fetch of a byte-range request resolves with a
    status outside 200..299, the caller receives status 500 and the JSON
    body [{error: Failed to fetch PMTiles file}], nothing else: no header
    and no byte of the upstream response is forwarded.  That one upstream
    request is the only one: there is no retry. *)
Theorem proxy_upstream_error_status cfg env w req response :
  truthy (query_url req) = true →
  isTileJsonRequest req = false →
  upstream_outcome cfg env req w = FetchResolved response →
  response_ok response = false →
  let w' := after (proxy_pmtiles cfg req) env w in
  res w' = error_response 500 "Failed to fetch PMTiles file"
  ∧ upstream_exchanges (trace w')
    = upstream_exchanges (trace w)
      ++ [(target_url req, request_headers cfg env req w, FetchResolved response)].
Proof.
  intros Hurl Htile Houtcome Hok w'. split.
  - destruct (proxy_byte_range cfg env w req Hurl Htile) as (_ & Hres & _).
    fold w' in Hres. rewrite Hres, Houtcome. simpl. by rewrite Hok.
  - unfold w'. by rewrite (proxy_byte_range_exchanges cfg env w req Hurl Htile), Houtcome.
Qed.

Lemma proxy_upstream_error_status_witness :
  res (after (proxy_pmtiles demo_cfg range_request) refusing_env (started refusing_env))
  = error_response 500 "Failed to fetch PMTiles file".
Proof.
  apply (proxy_upstream_error_status demo_cfg refusing_env (started refusing_env)
           range_request forbidden); reflexivity.
Defined.

(** ** The configuration endpoint and the advertised URLs *)

Lemma string_append_assoc (a b c : string) : (a +:+ b) +:+ c = a +:+ b +:+ c.
Proof.
  induction a as [|x a IH]; [done|].
  change (String x ((a +:+ b) +:+ c) = String x (a +:+ b +:+ c)). by rewrite IH.
Qed.

Lemma encodeURIComponent_app a b :
  encodeURIComponent (a +:+ b) = encodeURIComponent a +:+ encodeURIComponent b.
Proof.
  induction a as [|x a IH]; [done|].
  change (encodeURIComponent (String x a +:+ b))
    with ((if uri_unreserved x then String x EmptyString else percent_escape x)
          +:+ encodeURIComponent (a +:+ b)).
  change (encodeURIComponent (String x a))
    with ((if uri_unreserved x then String x EmptyString else percent_escape x)
          +:+ encodeURIComponent a).
  by rewrite IH, string_append_assoc.
Qed.

(** What the configuration endpoint does: two lines logged, and the
    object of lines 212-217 sent as JSON. *)
Lemma config_outcome cfg env w req :
  after (api_config cfg req) env w
  = with_events [Console Log "Received parameters:"; Console Log "Generated URL:"]
      (with_res (if revalidated env req (config_object cfg req)
                 then not_modified
                 else json_response (config_object cfg req)) w).
Proof.
  unfold after, api_config, mbind, Task_bind, update_res, console, emit,
    with_events, with_res, config_object.
  simpl. by rewrite send_json_first, <- !app_assoc.
Qed.

Lemma config_outcome_quiet cfg env w req :
  upstream_exchanges (trace (after (api_config cfg req) env w))
  = upstream_exchanges (trace w)
  ∧ posts (trace (after (api_config cfg req) env w)) = posts (trace w)
  ∧ fetch_outcomes (trace (after (api_config cfg req) env w)) = fetch_outcomes (trace w)
  ∧ token_state (after (api_config cfg req) env w) = token_state w.
Proof.
  rewrite config_outcome. unfold with_events, with_res, token_state. simpl.
  rewrite upstream_exchanges_app, posts_app, fetch_outcomes_app. simpl.
  by rewrite !app_nil_r, Nat.add_0_r.
Qed.

(** C9 as stated fails for a client that revalidates the configuration
    it holds: the answer to the same call is a bare 304, with no
    [pmtilesUrl] and no [sourceLayer] in it. *)
Lemma conditional_config_counterexample :
  query_filePath (revalidating config_request) = JsString "/Volumes/x/y/z.pmtiles"
  ∧ query_sourceLayer (revalidating config_request) = JsString "layer1"
  ∧ res (after (api_config demo_cfg (revalidating config_request)) serving_env initial)
    = not_modified
  ∧ ¬ config_as_specified
        (res (after (api_config demo_cfg (revalidating config_request)) serving_env initial)).
Proof.
  split; [reflexivity|]. split; [reflexivity|]. split; [reflexivity|].
  intros (fields & url & Hpayload & _). vm_compute in Hpayload. discriminate.
Qed.

(** C9, amended.  The configuration endpoint, called with
    [filePath=/Volumes/x/y/z.pmtiles] and [sourceLayer=layer1], answers
    with status 200 and the object whose [pmtilesUrl] is
    [/proxy/pmtiles?url=] followed by the percent-encoded upstream URL
    (the configured host templated into [https://HOST/api/2.0/fs/files]
    followed by the path), whose [sourceLayer] is [layer1], whose
    [baseMapUrl] is the fixed tile URL and whose [zoom] is 7, unless the
    request is conditional and express finds it fresh against that
    object, in which case the answer is a 304 without body.  Either way
    the handler only logs: no request goes to the remote store or to the
    identity endpoint and the Token State stays as it is. *)
Theorem config_endpoint_builds_proxy_url cfg env w req :
  query_filePath req = JsString "/Volumes/x/y/z.pmtiles" →
  query_sourceLayer req = JsString "layer1" →
  let w' := after (api_config cfg req) env w in
  let config :=
    JObject [("pmtilesUrl",
              JStr ("/proxy/pmtiles?url="
                    +:+ encodeURIComponent
                          ("https://" +:+ template (DATABRICKS_HOST cfg)
                           +:+ "/api/2.0/fs/files/Volumes/x/y/z.pmtiles")));
             ("sourceLayer", JStr "layer1");
             ("baseMapUrl", JStr "https://tile.openstreetmap.org/{z}/{x}/{y}.png");
             ("zoom", JNumber 7)] in
  res w'
  = (if conditional req && freshness env req config
     then {| statusCode := 304; resHeaders := ∅; headersSent := true;
             payload := NoPayload; ended := true |}
     else {| statusCode := 200;
             resHeaders := {[ "Content-Type" := "application/json; charset=utf-8" ]};
             headersSent := true;
             payload := JsonPayload config;
             ended := true |})
  ∧ encodeURIComponent ("https://" +:+ template (DATABRICKS_HOST cfg)
                        +:+ "/api/2.0/fs/files/Volumes/x/y/z.pmtiles")
    = "https%3A%2F%2F" +:+ encodeURIComponent (template (DATABRICKS_HOST cfg))
      +:+ "%2Fapi%2F2.0%2Ffs%2Ffiles%2FVolumes%2Fx%2Fy%2Fz.pmtiles"
  ∧ upstream_exchanges (trace w') = upstream_exchanges (trace w)
  ∧ posts (trace w') = posts (trace w)
  ∧ token_state w' = token_state w.
Proof.
  intros Hpath Hlayer w' config.
  destruct (config_outcome_quiet cfg env w req) as (Hnone & Hposts & _ & Hstate).
  fold w' in Hnone, Hposts, Hstate.
  split; [|split; [|done]].
  - unfold w'. rewrite config_outcome.
    unfold config_object, proxyUrl_of, ucUrl_of. rewrite Hpath, Hlayer. reflexivity.
  - change ("https://" +:+ template (DATABRICKS_HOST cfg)
            +:+ "/api/2.0/fs/files/Volumes/x/y/z.pmtiles")
      with (String.append "https://"
              (String.append (template (DATABRICKS_HOST cfg))
                 "/api/2.0/fs/files/Volumes/x/y/z.pmtiles")).
    by rewrite !encodeURIComponent_app.
Qed.

Lemma config_endpoint_builds_proxy_url_witness :
  payload (res (after (api_config demo_cfg config_request) serving_env initial))
  = JsonPayload
      (JObject [("pmtilesUrl",
                 JStr "/proxy/pmtiles?url=https%3A%2F%2Fadb.example.net%2Fapi%2F2.0%2Ffs%2Ffiles%2FVolumes%2Fx%2Fy%2Fz.pmtiles");
                ("sourceLayer", JStr "layer1");
                ("baseMapUrl", JStr "https://tile.openstreetmap.org/{z}/{x}/{y}.png");
                ("zoom", JNumber 7)]).
Proof.
  destruct (config_endpoint_builds_proxy_url demo_cfg serving_env initial config_request
              eq_refl eq_refl) as (Hres & _).
  rewrite Hres. reflexivity.
Defined.

(** C10.  The tiles entry of the descriptor that a metadata probe
    returns is [protocol://host/proxy/pmtiles?url=] followed by the
    target URL as the handler decoded it (the raw value when decoding
    throws), not encoded again; the one probe that returns no
    descriptor is the conditional one that is answered with a 304.  So
    there are target URLs, such as one with a query of its own, that a
    client does not get back when it reads the [url] parameter of the
    advertised URL: everything from the first [&] on is lost. *)
Theorem probe_advertises_decoded_url :
  (∀ cfg env w req accept,
     truthy (query_url req) = true →
     truthy (headers_range req) = false →
     headers_accept req = JsString accept →
     includes "application/json" accept = true →
     let r := res (after (proxy_pmtiles cfg req) env w) in
     advertised_tiles (payload r)
     = Some (protocol req +:+ "://" +:+ template (host req) +:+ "/proxy/pmtiles?url="
             +:+ decoded_url (template (query_url req)))
     ∨ conditional req = true ∧ statusCode r = 304 ∧ payload r = NoPayload)
  ∧ (∃ advertised,
       advertised_tiles
         (payload (res (after (proxy_pmtiles demo_cfg (probe_request target_with_query))
                          serving_env initial)))
       = Some advertised
       ∧ target_url (probe_request target_with_query) = target_with_query
       ∧ query_parameter "url" advertised
         = Some "https://adb.example.net/api/2.0/fs/files/Volumes/x/y/z.pmtiles?a=1"
       ∧ query_parameter "url" advertised ≠ Some target_with_query).
Proof.
  split.
  - intros cfg env w req accept Hurl Hrange Haccept Hjson r. unfold r.
    rewrite (proxy_probe cfg env w req Hurl (probe_test req accept Hrange Haccept Hjson)).
    unfold revalidated.
    destruct (conditional req); [|by left].
    destruct (freshness env req _); [by right|by left].
  - exists ("http://localhost:3000/proxy/pmtiles?url=" +:+ target_with_query).
    repeat split; try reflexivity. vm_compute. discriminate.
Qed.

Lemma probe_advertises_decoded_url_witness :
  advertised_tiles
    (payload (res (after (proxy_pmtiles demo_cfg (probe_request "a%20b")) serving_env initial)))
  = Some "http://localhost:3000/proxy/pmtiles?url=a b".
Proof.
  destruct probe_advertises_decoded_url as [Hall _].
  destruct (Hall demo_cfg serving_env initial (probe_request "a%20b") "application/json"
              eq_refl eq_refl eq_refl eq_refl) as [Htiles | [Hconditional _]].
  - exact Htiles.
  - discriminate Hconditional.
Defined.

(** The URL that the configuration endpoint builds is percent-encoded,
    and there the same target URL does come back. *)
Example config_url_round_trip :
  query_parameter "url" (proxyUrl_of target_with_query) = Some target_with_query.
Proof. reflexivity. Qed.

(** A URL that cannot be decoded is used as it came. *)
Example undecodable_url_kept : decoded_url "100%" = "100%".
Proof. reflexivity. Qed.

(** ** Runs of the server *)

(** Partial content counts as a success of the upstream fetch. *)
Example partial_content_ok : response_ok partial_content = true.
Proof. reflexivity. Qed.

(** The start-up of a configured process: one POST with the Basic
    credentials, then the two log lines. *)
Example startup_trace :
  trace (started serving_env)
  = [TokenPost "https://adb.example.net/oidc/v1/token" "Basic aWQ6c2VjcmV0"
               "grant_type=client_credentials&scope=all-apis"
               (HttpReply 200 (Some hour_token));
     Console Log "Access Token fetched successfully";
     Console Log "Initial Databricks token fetch completed"]
  ∧ token_state (started serving_env) = (JsString "T1", Some 3600000).
Proof. split; reflexivity. Qed.

(** Without configuration the start-up only complains. *)
Example startup_without_configuration :
  after (perform no_cfg Startup) serving_env initial
  = with_events [Console Error missing_message;
                 Console Log "Initial Databricks token fetch completed"] initial.
Proof. reflexivity. Qed.

(** A range request a minute after the start-up: the cached token is
    used and the range is forwarded. *)
Example range_request_headers :
  request_headers demo_cfg serving_env range_request (started serving_env)
  = {[ "User-Agent" := "PMTiles-Viewer/1.0";
       "Authorization" := "Bearer T1";
       "Range" := "bytes=0-3" ]}.
Proof. vm_compute. reflexivity. Qed.

Example range_request_response :
  res (after (proxy_pmtiles demo_cfg range_request) serving_env (started serving_env))
  = {| statusCode := 206;
       resHeaders := {[ "Content-Type" := "application/octet-stream";
                        "Access-Control-Allow-Origin" := "*";
                        "Access-Control-Allow-Methods" := "GET, HEAD, OPTIONS";
                        "Access-Control-Allow-Headers" := "Range, Authorization";
                        "Content-Range" := "bytes 0-3/100";
                        "Content-Length" := "4";
                        "Accept-Ranges" := "bytes" ]};
       headersSent := true;
       payload := StreamPayload ["PM"; "Ti"];
       ended := true |}.
Proof. vm_compute. reflexivity. Qed.

(** Without configuration the request goes upstream unauthenticated. *)
Example unauthenticated_request_headers :
  request_headers no_cfg serving_env range_request initial
  = {[ "User-Agent" := "PMTiles-Viewer/1.0"; "Range" := "bytes=0-3" ]}.
Proof. vm_compute. reflexivity. Qed.

(** A read error before the first chunk ends the response with 500; after
    the first chunk the status has gone out already. *)
Example stream_error_at_start :
  statusCode (pumped [] true (success_head partial_content)) = 500.
Proof. reflexivity. Qed.

Example stream_error_midway :
  statusCode (pumped ["PM"] true (success_head partial_content)) = 206.
Proof. reflexivity. Qed.

(** The preflight answer. *)
Example options_response :
  statusCode (res (after options_pmtiles serving_env initial)) = 200
  ∧ resHeaders (res (after options_pmtiles serving_env initial))
      !! "Access-Control-Allow-Origin" = Some "*".
Proof. split; reflexivity. Qed.

(** * Further properties of the code *)

(** ** What each activity does to the token cache and to the remote store *)

Lemma closing_events_quiet outcome :
  fetch_outcomes (closing_events outcome) = [] ∧ posts (closing_events outcome) = 0%nat.
Proof.
  destruct outcome as [|response]; [done|]. simpl.
  destruct (response_ok response); [|done].
  destruct (up_body response) as [body|]; [|done]. by destruct (broken body).
Qed.

Lemma arrived_view req w : token_view (arrived req w) = token_view w.
Proof.
  unfold token_view, token_state, arrived. simpl.
  rewrite fetch_outcomes_app, posts_app.
  destruct (decodeURIComponent (template (query_url req))); simpl;
    by rewrite app_nil_r, Nat.add_0_r.
Qed.

Lemma announced_view w : token_view (announced w) = token_view w.
Proof.
  unfold token_view, token_state, announced. simpl.
  by rewrite fetch_outcomes_app, posts_app, app_nil_r, Nat.add_0_r.
Qed.

(** A request without URL: one log line and the 400. *)
Lemma proxy_without_url cfg env w req :
  truthy (query_url req) = false →
  after (proxy_pmtiles cfg req) env w
  = with_events [Console Log "Proxy request received for URL:"]
      (with_res (error_response 400 "URL parameter required") w).
Proof.
  intros Hurl. unfold after, proxy_pmtiles. rewrite Hurl.
  unfold mbind, Task_bind, update_res, console, emit. reflexivity.
Qed.

(** Every activity leaves the token cache alone or runs exactly one
    token fetch, from a world in which the cache looks the same. *)
Lemma perform_token_effect cfg env w a :
  token_view (after (perform cfg a) env w) = token_view w
  ∨ ∃ w0, token_view w0 = token_view w
          ∧ token_view (after (perform cfg a) env w)
            = token_view (after (fetchDatabricksToken cfg) env w0).
Proof.
  destruct a as [|req| |req].
  - right. exists w. split; [done|].
    unfold perform, after, mbind, Task_bind.
    destruct (fetch_returns cfg env w) as [v Hv].
    destruct (fetchDatabricksToken cfg env w) as [[v'|err] w1]; [|done].
    unfold token_view, token_state, console, emit. simpl.
    by rewrite fetch_outcomes_app, posts_app, app_nil_r, Nat.add_0_r.
  - simpl. destruct (truthy (query_url req)) eqn:Hurl.
    + destruct (isTileJsonRequest req) eqn:Htile.
      * left. rewrite (proxy_probe cfg env w req Hurl Htile).
        apply arrived_view.
      * destruct (proxy_byte_range cfg env w req Hurl Htile) as (Htrace & _ & Hstate).
        assert (Hview : token_view (after (proxy_pmtiles cfg req) env w)
                        = token_view (authorised cfg env req w)).
        { unfold token_view. rewrite Hstate, Htrace.
          rewrite !fetch_outcomes_app, !posts_app.
          destruct (closing_events_quiet (upstream_outcome cfg env req w)) as [-> ->].
          simpl. by rewrite app_nil_r, Nat.add_0_r. }
        rewrite Hview. unfold authorised, after.
        destruct (fresh env (arrived req w)) eqn:Hfresh.
        -- left. rewrite (getValid_fresh cfg env _ Hfresh). simpl.
           rewrite <- (arrived_view req w). reflexivity.
        -- right. exists (announced (arrived req w)).
           rewrite announced_view, arrived_view. split; [done|].
           by rewrite (getValid_stale cfg env _ Hfresh).
    + left. rewrite (proxy_without_url cfg env w req Hurl).
      unfold token_view, token_state. simpl.
      by rewrite fetch_outcomes_app, posts_app, app_nil_r, Nat.add_0_r.
  - left. reflexivity.
  - left. unfold perform, after, api_config, mbind, Task_bind, update_res, console, emit.
    unfold token_view, token_state. simpl.
    by rewrite <- app_assoc, fetch_outcomes_app, posts_app, app_nil_r, Nat.add_0_r.
Qed.

(** What an activity adds to the upstream requests. *)
Lemma perform_exchanges cfg env w a :
  upstream_exchanges (trace (after (perform cfg a) env w))
  = upstream_exchanges (trace w) ++ exchange_made cfg env a w.
Proof.
  destruct a as [|req| |req]; simpl.
  - unfold after, mbind, Task_bind.
    destruct (fetch_returns cfg env w) as [v Hv].
    pose proof (fetch_trace cfg env w) as Htrace. unfold after in Htrace.
    destruct (fetchDatabricksToken cfg env w) as [[v'|err] w1]; [|done].
    simpl in *. rewrite Htrace, !upstream_exchanges_app, fetch_events_exchanges.
    by rewrite !app_nil_r.
  - destruct (truthy (query_url req)) eqn:Hurl; simpl.
    + destruct (isTileJsonRequest req) eqn:Htile; simpl.
      * rewrite (proxy_probe cfg env w req Hurl Htile). unfold with_res, arrived. simpl.
        by rewrite upstream_exchanges_app.
      * by apply proxy_byte_range_exchanges.
    + rewrite (proxy_without_url cfg env w req Hurl). simpl.
      by rewrite upstream_exchanges_app.
  - by rewrite app_nil_r.
  - unfold after, api_config, mbind, Task_bind, update_res, console, emit. simpl.
    by rewrite <- app_assoc, upstream_exchanges_app.
Qed.

(** ** More on the token manager *)

Lemma fetch_view cfg env w :
  token_view (after (fetchDatabricksToken cfg) env w)
  = (token_state (after (fetchDatabricksToken cfg) env w),
     fetch_outcomes (trace w) ++ [if missing_config cfg then None else granted (next_reply env w)],
     (posts (trace w) + if missing_config cfg then 0 else 1)%nat).
Proof.
  unfold token_view.
  by rewrite fetch_trace, fetch_outcomes_app, posts_app, fetch_events_outcomes,
       fetch_events_posts.
Qed.

Lemma view_posts w0 w : token_view w0 = token_view w → posts (trace w0) = posts (trace w).
Proof. unfold token_view. congruence. Qed.

Lemma view_state w0 w : token_view w0 = token_view w → token_state w0 = token_state w.
Proof. unfold token_view. congruence. Qed.

(** A property of the token cache that the initial state has and that a
    token fetch keeps holds in every reachable state. *)
Lemma reachable_view_invariant cfg env
    (P : (JsVal * option Z) * list (option TokenData) * nat → Prop) :
  P (token_view initial) →
  (∀ w, P (token_view w) → P (token_view (after (fetchDatabricksToken cfg) env w))) →
  ∀ w, reachable cfg env w → P (token_view w).
Proof.
  intros Hinitial Hfetch w Hw. induction Hw as [|w a Hw IH]; [done|].
  destruct (perform_token_effect cfg env w a) as [-> | (w0 & Hw0 & ->)]; [done|].
  apply Hfetch. by rewrite Hw0.
Qed.

Lemma gets_exchanges tr : gets tr = length (upstream_exchanges tr).
Proof.
  unfold gets, upstream_exchanges.
  induction tr as [|e tr IH]; [done|].
  destruct e; [rewrite filter_cons_False by (simpl; tauto)
              |rewrite filter_cons_False by (simpl; tauto)
              |rewrite filter_cons_True by done]; simpl; by rewrite IH.
Qed.

(** X1.  A successful token fetch, in a configured process: the token of
    the reply is cached and returned; the expiry is the clock reading
    plus the lifetime of the reply in milliseconds, the lifetime being
    [expires_in] seconds, or 3600 when the reply has none or has 0; the
    only request is one POST of the client-credentials form to
    [https://HOST/oidc/v1/token], with the Basic credentials
    [base64(id:secret)]. *)
Theorem fetchDatabricksToken_caches_grant cfg env w status data :
  missing_config cfg = false →
  next_reply env w = HttpReply status (Some data) →
  status_2xx status = true →
  let w' := after (fetchDatabricksToken cfg) env w in
  fst (fetchDatabricksToken cfg env w) = Normal (access_token data)
  ∧ accessToken w' = access_token data
  ∧ tokenExpiry w'
    = Some (clockAt env (ticks w)
            + match expires_in data with
              | Some 0 | None => 3600
              | Some seconds => seconds
              end * 1000)
  ∧ trace w'
    = trace w
      ++ [TokenPost ("https://" +:+ template (DATABRICKS_HOST cfg) +:+ "/oidc/v1/token")
                    ("Basic " +:+ base64 (template (DATABRICKS_CLIENT_ID cfg) +:+ ":"
                                          +:+ template (DATABRICKS_CLIENT_SECRET cfg)))
                    "grant_type=client_credentials&scope=all-apis"
                    (HttpReply status (Some data));
          Console Log "Access Token fetched successfully"].
Proof.
  intros Hcfg Hreply Hstatus w'.
  assert (Hgrant : granted (next_reply env w) = Some data)
    by (rewrite Hreply; simpl; by rewrite Hstatus).
  destruct (fetch_success cfg env w data Hcfg Hgrant) as (Hret & Htok & Hexp & _).
  split; [done|]. split; [done|]. split.
  - fold w' in Hexp. rewrite Hexp. unfold expiresIn_of.
    destruct (expires_in data) as [[| |]|]; reflexivity.
  - unfold w'. rewrite fetch_trace, Hreply. unfold fetch_events.
    rewrite Hcfg. simpl. by rewrite Hstatus.
Qed.

Lemma fetchDatabricksToken_caches_grant_witness :
  token_state (after (fetchDatabricksToken demo_cfg) minute_env initial)
  = (JsString "T1", Some 3600000).
Proof.
  destruct (fetchDatabricksToken_caches_grant demo_cfg minute_env initial 200 hour_token
              eq_refl eq_refl eq_refl) as (_ & Htok & Hexp & _).
  unfold token_state. rewrite Htok, Hexp. reflexivity.
Defined.

Lemma authorised_disabled cfg env req w :
  missing_config cfg = true →
  token_state w = (JsNull, None) →
  accessToken (authorised cfg env req w) = JsNull.
Proof.
  intros Hcfg Hstate. injection Hstate as Htok Hexp.
  unfold authorised, after.
  assert (Hfresh : fresh env (arrived req w) = false)
    by (unfold fresh, arrived; simpl; by rewrite Htok).
  rewrite (getValid_stale cfg env _ Hfresh). simpl.
  destruct (fetch_failure cfg env (announced (arrived req w))) as (_ & Hsame & _);
    [by rewrite Hcfg|].
  injection Hsame as Hsame _. by rewrite Hsame.
Qed.

(** X2.  Without a complete configuration the token manager is disabled
    for good: in every reachable state no token and no expiry is cached,
    no POST has ever gone to the identity endpoint, and none of the
    upstream requests made so far carries an Authorization header. *)
Theorem unconfigured_process_never_authenticates cfg env w :
  missing_config cfg = true →
  reachable cfg env w →
  token_state w = (JsNull, None)
  ∧ posts (trace w) = 0%nat
  ∧ Forall (λ x, headers_of x !! "Authorization" = None) (upstream_exchanges (trace w)).
Proof.
  intros Hcfg Hw.
  assert (Hview : token_state w = (JsNull, None) ∧ posts (trace w) = 0%nat).
  { apply (reachable_view_invariant cfg env
             (λ v, fst (fst v) = (JsNull, None) ∧ snd v = 0%nat)); [done| |done].
    intros w0 [Hstate Hposts]. rewrite fetch_view, Hcfg. simpl in *.
    destruct (fetch_failure cfg env w0) as (_ & Hsame & _); [by rewrite Hcfg|].
    rewrite Hsame. split; [done|lia]. }
  destruct Hview as [Hstate Hposts]. split; [done|]. split; [done|]. clear Hstate Hposts.
  induction Hw as [|w a Hw IH]; [by apply Forall_nil|].
  rewrite perform_exchanges. apply Forall_app. split; [exact IH|].
  destruct a as [|req| |req]; simpl; try by apply Forall_nil.
  destruct (truthy (query_url req) && negb (isTileJsonRequest req)); [|by apply Forall_nil].
  apply Forall_cons. split; [|by apply Forall_nil].
  assert (Hstate : token_state w = (JsNull, None)).
  { apply (reachable_view_invariant cfg env (λ v, fst (fst v) = (JsNull, None)));
      [done| |done].
    intros w0 Hstate. rewrite fetch_view. simpl in *.
    destruct (fetch_failure cfg env w0) as (_ & Hsame & _); [by rewrite Hcfg|].
    by rewrite Hsame. }
  unfold headers_of, request_headers, upstream_headers, set_if_truthy. simpl.
  rewrite (authorised_disabled cfg env req w Hcfg Hstate). simpl.
  destruct (truthy (headers_range req)); [rewrite lookup_insert_ne by done|]; done.
Qed.

Lemma unconfigured_process_never_authenticates_witness :
  Forall (λ x, headers_of x !! "Authorization" = None)
    (upstream_exchanges
       (trace (after (perform no_cfg (GetProxy range_request)) serving_env
                 (after (perform no_cfg Startup) serving_env initial)))).
Proof.
  apply (unconfigured_process_never_authenticates no_cfg serving_env); [reflexivity|].
  apply reachable_step, reachable_step, reachable_initial.
Defined.

(** X3.  The token and its expiry are written together: in every
    reachable state an expiry is cached exactly when some token fetch has
    succeeded since the start, without an expiry the token is [null], and
    so a token that passes the test [!accessToken] of line 58 always has
    an expiry. *)
Theorem expiry_cached_with_token cfg env w :
  reachable cfg env w →
  (tokenExpiry w = None ↔ latest_grant (trace w) = None)
  ∧ (tokenExpiry w = None → accessToken w = JsNull)
  ∧ (truthy (accessToken w) = true → is_Some (tokenExpiry w)).
Proof.
  intros Hw.
  assert (Hboth : (tokenExpiry w = None ↔ latest_grant (trace w) = None)
                  ∧ (tokenExpiry w = None → accessToken w = JsNull)).
  { apply (reachable_view_invariant cfg env
             (λ v, (snd (fst (fst v)) = None ↔ last (omap id (snd (fst v))) = None)
                   ∧ (snd (fst (fst v)) = None → fst (fst (fst v)) = JsNull)));
      [done| |done].
    intros w0 [Hiff Hnull]. rewrite fetch_view. simpl in *. rewrite omap_app, last_app.
    destruct (if missing_config cfg then None else granted (next_reply env w0))
      as [data|] eqn:Hgrant; simpl.
    - destruct (missing_config cfg) eqn:Hcfg; [done|].
      destruct (fetch_success cfg env w0 data Hcfg Hgrant) as (_ & _ & -> & _).
      split; [split|]; done.
    - destruct (fetch_failure cfg env w0 Hgrant) as (_ & Hsame & _).
      injection Hsame as -> ->. done. }
  destruct Hboth as [Hiff Hnull]. split; [done|]. split; [done|].
  intros Htruthy. destruct (tokenExpiry w) as [e|]; [by eexists|].
  rewrite Hnull in Htruthy by done. discriminate.
Qed.

Lemma expiry_cached_with_token_witness :
  is_Some (tokenExpiry (started outage_env)).
Proof.
  destruct (expiry_cached_with_token demo_cfg outage_env (started outage_env))
    as (_ & _ & Hsome).
  - apply reachable_step, reachable_initial.
  - apply Hsome. reflexivity.
Defined.

(** X4.  Nothing is retried and nothing is asked twice: whatever an
    activity is (the start-up, a proxy request, a preflight, a
    configuration request) and whatever comes back, it makes at most one
    POST to the identity endpoint and at most one upstream GET, and only
    a proxy request with a URL that is not a metadata probe makes an
    upstream GET, exactly one. *)
Theorem no_activity_retries cfg env w a :
  let w' := after (perform cfg a) env w in
  (posts (trace w') ≤ posts (trace w) + 1)%nat
  ∧ (posts (trace w) ≤ posts (trace w'))%nat
  ∧ gets (trace w')
    = (gets (trace w)
       + match a with
         | GetProxy req =>
             if truthy (query_url req) && negb (isTileJsonRequest req) then 1 else 0
         | _ => 0
         end)%nat.
Proof.
  intros w'. split; [|split].
  - destruct (perform_token_effect cfg env w a) as [Hsame | (w0 & Hw0 & Hview)].
    + fold w' in Hsame. rewrite (view_posts _ _ Hsame). lia.
    + fold w' in Hview. rewrite (view_posts _ _ Hview), fetch_trace, posts_app.
      rewrite fetch_events_posts, (view_posts _ _ Hw0).
      destruct (missing_config cfg); lia.
  - destruct (perform_token_effect cfg env w a) as [Hsame | (w0 & Hw0 & Hview)].
    + fold w' in Hsame. rewrite (view_posts _ _ Hsame). lia.
    + fold w' in Hview. rewrite (view_posts _ _ Hview), fetch_trace, posts_app.
      rewrite (view_posts _ _ Hw0). lia.
  - unfold w'. rewrite !gets_exchanges, perform_exchanges, length_app.
    destruct a as [|req| |req]; simpl; try done.
    by destruct (truthy (query_url req) && negb (isTileJsonRequest req)).
Qed.

(** X5.  A token that lives less than five minutes is never served from
    the cache: when a fetch has just cached a token whose lifetime is
    under 300 seconds and the clock does not run backwards, the next call
    of [getValidAccessToken] fetches again. *)
Theorem short_lived_token_refetched cfg env w data :
  missing_config cfg = false →
  granted (next_reply env w) = Some data →
  expiresIn_of data < 300 →
  let w' := after (fetchDatabricksToken cfg) env w in
  clockAt env (ticks w) ≤ clockAt env (ticks w') →
  fetch_invocations (trace (after (getValidAccessToken cfg) env w'))
  = S (fetch_invocations (trace w')).
Proof.
  intros Hcfg Hgrant Hshort w' Hclock.
  destruct (fetch_success cfg env w data Hcfg Hgrant) as (_ & Htok & Hexp & _).
  fold w' in Htok, Hexp.
  assert (Hfresh : fresh env w' = false).
  { unfold fresh. rewrite Hexp. apply andb_false_iff. right.
    apply negb_false_iff, Z.ltb_lt. lia. }
  unfold after at 1. rewrite (getValid_stale cfg env w' Hfresh). simpl.
  rewrite fetch_trace, trace_announced, !fetch_invocations_app, fetch_events_invocations.
  change (fetch_invocations [_]) with 0%nat. lia.
Qed.

Lemma short_lived_token_refetched_witness :
  fetch_invocations
    (trace (after (getValidAccessToken demo_cfg)
              (scenario 1000 (HttpReply 200 (Some {| access_token := JsString "T2";
                                                      expires_in := Some 60 |}))
                 FetchRejected)
              (after (fetchDatabricksToken demo_cfg)
                 (scenario 1000 (HttpReply 200 (Some {| access_token := JsString "T2";
                                                         expires_in := Some 60 |}))
                    FetchRejected)
                 (started (scenario 1000 (HttpReply 200 (Some {| access_token := JsString "T2";
                                                                  expires_in := Some 60 |}))
                             FetchRejected)))))
  = 3%nat.
Proof.
  apply (short_lived_token_refetched demo_cfg
           (scenario 1000 (HttpReply 200 (Some {| access_token := JsString "T2";
                                                   expires_in := Some 60 |}))
              FetchRejected)
           (started (scenario 1000 (HttpReply 200 (Some {| access_token := JsString "T2";
                                                            expires_in := Some 60 |}))
                       FetchRejected))
           {| access_token := JsString "T2"; expires_in := Some 60 |});
    vm_compute; congruence.
Defined.

(** ** More on the proxy *)

(** X6.  When the upstream fetch itself fails (the remote store cannot
    be reached, or the URL is not one), the caller receives status 500
    and the JSON body [{error: Failed to fetch PMTiles file}], with no
    other header; the one attempt is not repeated. *)
Theorem proxy_upstream_unreachable cfg env w req :
  truthy (query_url req) = true →
  isTileJsonRequest req = false →
  upstream_outcome cfg env req w = FetchRejected →
  let w' := after (proxy_pmtiles cfg req) env w in
  res w' = error_response 500 "Failed to fetch PMTiles file"
  ∧ upstream_exchanges (trace w')
    = upstream_exchanges (trace w)
      ++ [(target_url req, request_headers cfg env req w, FetchRejected)].
Proof.
  intros Hurl Htile Houtcome w'. split.
  - destruct (proxy_byte_range cfg env w req Hurl Htile) as (_ & Hres & _).
    fold w' in Hres. by rewrite Hres, Houtcome.
  - unfold w'. by rewrite (proxy_byte_range_exchanges cfg env w req Hurl Htile), Houtcome.
Qed.

Lemma proxy_upstream_unreachable_witness :
  res (after (proxy_pmtiles demo_cfg range_request) unreachable_env (started unreachable_env))
  = error_response 500 "Failed to fetch PMTiles file".
Proof.
  apply (proxy_upstream_unreachable demo_cfg unreachable_env (started unreachable_env)
           range_request); reflexivity.
Defined.

(** X7.  An upstream response with a success status but without a body
    (a 204, say) does not come through: [response.body.getReader()]
    throws, and the caller receives status 500 with the JSON body
    [{error: Failed to fetch PMTiles file}]. *)
Theorem proxy_bodiless_success_fails cfg env w req response :
  truthy (query_url req) = true →
  isTileJsonRequest req = false →
  upstream_outcome cfg env req w = FetchResolved response →
  response_ok response = true →
  up_body response = None →
  let r := res (after (proxy_pmtiles cfg req) env w) in
  statusCode r = 500
  ∧ payload r = JsonPayload (JObject [("error", JStr "Failed to fetch PMTiles file")])
  ∧ ended r = true.
Proof.
  intros Hurl Htile Houtcome Hok Hbody r.
  destruct (proxy_byte_range cfg env w req Hurl Htile) as (_ & Hres & _).
  fold r in Hres. rewrite Houtcome in Hres. simpl in Hres.
  rewrite Hok, Hbody in Hres. rewrite Hres.
  unfold send_json, res_status. cbn [statusCode payload ended headersSent].
  by rewrite success_head_sent.
Qed.

Lemma proxy_bodiless_success_fails_witness :
  statusCode (res (after (proxy_pmtiles demo_cfg range_request) bodiless_env
                     (started bodiless_env))) = 500.
Proof.
  destruct (proxy_bodiless_success_fails demo_cfg bodiless_env (started bodiless_env)
              range_request no_content eq_refl eq_refl eq_refl eq_refl eq_refl)
    as (Hstatus & _).
  exact Hstatus.
Defined.

(** X8.  The pump forwards every chunk that the upstream body delivers,
    in order, and always ends the response.  The status the caller sees
    is 206 for an upstream 206 and 200 for every other success status,
    except when the body breaks before its first chunk: then it is 500,
    with an empty body.  When the body breaks later, the status has
    gone out already and stays; the caller gets the chunks read so far. *)
Theorem proxy_streams_upstream_body cfg env w req response body :
  truthy (query_url req) = true →
  isTileJsonRequest req = false →
  upstream_outcome cfg env req w = FetchResolved response →
  response_ok response = true →
  up_body response = Some body →
  let r := res (after (proxy_pmtiles cfg req) env w) in
  payload r = StreamPayload (chunks body)
  ∧ ended r = true
  ∧ statusCode r
    = (if broken body && bool_decide (chunks body = []) then 500
       else if up_status response =? 206 then 206 else 200)
  ∧ resHeaders r !! "Content-Type" = Some "application/octet-stream".
Proof.
  intros Hurl Htile Houtcome Hok Hbody r.
  destruct (proxy_byte_range cfg env w req Hurl Htile) as (_ & Hres & _).
  fold r in Hres. rewrite Houtcome in Hres. simpl in Hres.
  rewrite Hok, Hbody in Hres. rewrite Hres.
  rewrite (pumped_payload _ _ _ (success_head_payload response)), pumped_ended.
  rewrite (pumped_status_any _ _ _ (success_head_sent response)), success_head_status.
  rewrite pumped_headers.
  destruct (success_head_headers response) as (_ & _ & _ & Htype & _).
  done.
Qed.

Lemma proxy_streams_upstream_body_witness :
  statusCode (res (after (proxy_pmtiles demo_cfg range_request)
                     (scenario 60000 NoResponse (FetchResolved broken_midway))
                     (started (scenario 60000 NoResponse (FetchResolved broken_midway))))) = 206
  ∧ statusCode (res (after (proxy_pmtiles demo_cfg range_request)
                       (scenario 60000 NoResponse (FetchResolved broken_at_start))
                       (started (scenario 60000 NoResponse (FetchResolved broken_at_start))))) = 500.
Proof.
  split.
  - destruct (proxy_streams_upstream_body demo_cfg
                (scenario 60000 NoResponse (FetchResolved broken_midway))
                (started (scenario 60000 NoResponse (FetchResolved broken_midway)))
                range_request broken_midway {| chunks := ["PM"]; broken := true |}
                eq_refl eq_refl eq_refl eq_refl eq_refl) as (_ & _ & Hstatus & _).
    exact Hstatus.
  - destruct (proxy_streams_upstream_body demo_cfg
                (scenario 60000 NoResponse (FetchResolved broken_at_start))
                (started (scenario 60000 NoResponse (FetchResolved broken_at_start)))
                range_request broken_at_start {| chunks := []; broken := true |}
                eq_refl eq_refl eq_refl eq_refl eq_refl) as (_ & _ & Hstatus & _).
    exact Hstatus.
Defined.

(** X9.  The [headers] option that the handler gives to [fetch] for the
    upstream request of a byte-range request holds three entries at
    most and never another one: the fixed User-Agent; an Authorization
    entry [Bearer TOKEN] exactly when [getValidAccessToken] returned a
    token (a non-empty one); a Range entry exactly when the inbound
    request has one with a value.  So no other header of the inbound
    request is handed on.  (The headers that [fetch] adds to the request
    by itself are not part of the statement.) *)
Theorem upstream_request_has_three_headers cfg env w req :
  truthy (query_url req) = true →
  isTileJsonRequest req = false →
  let token := accessToken (authorised cfg env req w) in
  let headers := request_headers cfg env req w in
  fst (getValidAccessToken cfg env (arrived req w)) = Normal token
  ∧ upstream_exchanges (trace (after (proxy_pmtiles cfg req) env w))
    = upstream_exchanges (trace w)
      ++ [(target_url req, headers, upstream_outcome cfg env req w)]
  ∧ headers !! "User-Agent" = Some "PMTiles-Viewer/1.0"
  ∧ headers !! "Authorization"
    = (if truthy token then Some ("Bearer " +:+ template token) else None)
  ∧ headers !! "Range"
    = (if truthy (headers_range req) then Some (template (headers_range req)) else None)
  ∧ ∀ name, name ≠ "User-Agent" → name ≠ "Authorization" → name ≠ "Range" →
            headers !! name = None.
Proof.
  intros Hurl Htile token headers. split; [|split].
  - destruct (getValid_outcome cfg env (arrived req w)) as (events & Hcall & _).
    unfold token, authorised. by rewrite Hcall at 1.
  - by apply proxy_byte_range_exchanges.
  - unfold headers, request_headers, upstream_headers, set_if_truthy. fold token.
    destruct (truthy token), (truthy (headers_range req));
      repeat split; try intros name Hua Hauth Hrange;
      repeat first [ rewrite lookup_insert_eq
                   | rewrite lookup_insert_ne by done
                   | rewrite lookup_singleton_eq
                   | rewrite lookup_singleton_ne by done ];
      done.
Qed.

Lemma upstream_request_has_three_headers_witness :
  request_headers demo_cfg serving_env range_request (started serving_env) !! "Authorization"
  = Some "Bearer T1"
  ∧ request_headers demo_cfg serving_env range_request (started serving_env) !! "Cookie" = None.
Proof.
  destruct (upstream_request_has_three_headers demo_cfg serving_env (started serving_env)
              range_request eq_refl eq_refl) as (_ & _ & _ & Hauth & _ & Hother).
  split; [exact Hauth|]. apply Hother; discriminate.
Defined.

Lemma fresh_arrived env req w : fresh env (arrived req w) = fresh env w.
Proof. reflexivity. Qed.






(** ** Encoding and decoding of URLs *)

Lemma chars_app a b : chars (a +:+ b) = chars a ++ chars b.
Proof.
  induction a as [|x a IH]; [done|].
  change (chars (String x a +:+ b)) with (x :: chars (a +:+ b)). by rewrite IH.
Qed.

Lemma encoded_char_safe c :
  forallb query_safe
    (chars (if uri_unreserved c then String c EmptyString else percent_escape c)) = true.
Proof. destruct c as [[] [] [] [] [] [] [] []]; reflexivity. Qed.

Lemma encoded_safe s : forallb query_safe (chars (encodeURIComponent s)) = true.
Proof.
  induction s as [|c s IH]; [done|].
  change (encodeURIComponent (String c s))
    with ((if uri_unreserved c then String c EmptyString else percent_escape c)
          +:+ encodeURIComponent s).
  by rewrite chars_app, forallb_app, encoded_char_safe, IH.
Qed.

Lemma encoded_chars s c : c ∈ chars (encodeURIComponent s) → query_safe c = true.
Proof.
  intros Hc. pose proof (encoded_safe s) as Hall.
  rewrite forallb_forall in Hall. apply Hall. by apply list_elem_of_In.
Qed.

(** *** Decoding plain characters *)

Lemma decode_plain c rest :
  c ≠ "%"%char →
  decode_from [] 0 (String c rest) = option_map (String c) (decode_from [] 0 rest).
Proof. destruct c as [[] [] [] [] [] [] [] []]; intros Hc; try reflexivity; done. Qed.

Lemma decode_percent_free s : percent_free s → decodeURIComponent s = Some s.
Proof.
  unfold percent_free, decodeURIComponent.
  induction s as [|c s IH]; [done|].
  change (chars (String c s)) with (c :: chars s). intros Hfree.
  rewrite decode_plain by (intros ->; apply Hfree; left).
  rewrite IH; [done|]. intros Hin. apply Hfree. by right.
Qed.

(** *** Decoding what was encoded *)

Lemma char_of_byte_of c : char_of (byte_of c) = c.
Proof. destruct c as [[] [] [] [] [] [] [] []]; reflexivity. Qed.

Lemma escape_octet c :
  hex_octet (hex_digit (Z.shiftr (byte_of c) 4)) (hex_digit (Z.land (byte_of c) 15))
  = Some (byte_of c).
Proof. destruct c as [[] [] [] [] [] [] [] []]; reflexivity. Qed.

Lemma low_leading_ones c : byte_of c < 128 → leading_ones (byte_of c) = 0%nat.
Proof. unfold leading_ones. intros Hc. by rewrite (proj2 (Z.ltb_lt _ _) Hc). Qed.

Lemma low_unreserved_plain c : uri_unreserved c = true → c ≠ "%"%char.
Proof. by intros Hc ->. Qed.

Lemma high_reserved c : 128 ≤ byte_of c → uri_unreserved c = false.
Proof.
  destruct c as [[] [] [] [] [] [] [] []]; intros Hc; try reflexivity;
    exfalso; revert Hc; vm_compute; congruence.
Qed.

(** An escape, read with nothing pending. *)
Lemma decode_escape c rest :
  decode_from [] 0 (percent_escape c +:+ rest)
  = match leading_ones (byte_of c) with
    | 0%nat => option_map (String c) (decode_from [] 0 rest)
    | 2%nat => decode_from [byte_of c] 1 rest
    | 3%nat => decode_from [byte_of c] 2 rest
    | 4%nat => decode_from [byte_of c] 3 rest
    | _ => None
    end.
Proof.
  unfold percent_escape.
  change (decode_from [] 0
            (String "%" (String (hex_digit (Z.shiftr (byte_of c) 4))
                           (String (hex_digit (Z.land (byte_of c) 15)) EmptyString))
             +:+ rest))
    with (match hex_octet (hex_digit (Z.shiftr (byte_of c) 4))
                          (hex_digit (Z.land (byte_of c) 15)) with
          | None => None
          | Some b =>
              match leading_ones b with
              | 0%nat => option_map (String (char_of b)) (decode_from [] 0 rest)
              | 2%nat => decode_from [b] 1 rest
              | 3%nat => decode_from [b] 2 rest
              | 4%nat => decode_from [b] 3 rest
              | _ => None
              end
          end).
  by rewrite escape_octet, char_of_byte_of.
Qed.

(** An escape, read as a continuation. *)
Lemma decode_continuation pending need c rest :
  decode_from pending (S need) (percent_escape c +:+ rest)
  = match need with
    | 0%nat =>
        if utf8_code_point (pending ++ [byte_of c])
        then option_map (String.append (string_of_octets (pending ++ [byte_of c])))
                        (decode_from [] 0 rest)
        else None
    | S _ => decode_from (pending ++ [byte_of c]) need rest
    end.
Proof.
  unfold percent_escape.
  change (decode_from pending (S need)
            (String "%" (String (hex_digit (Z.shiftr (byte_of c) 4))
                           (String (hex_digit (Z.land (byte_of c) 15)) EmptyString))
             +:+ rest))
    with (match hex_octet (hex_digit (Z.shiftr (byte_of c) 4))
                          (hex_digit (Z.land (byte_of c) 15)) with
          | None => None
          | Some b =>
              match need with
              | 0%nat =>
                  if utf8_code_point (pending ++ [b])
                  then option_map (String.append (string_of_octets (pending ++ [b])))
                                  (decode_from [] 0 rest)
                  else None
              | S _ => decode_from (pending ++ [b]) need rest
              end
          end).
  by rewrite escape_octet.
Qed.

Lemma encode_high c s :
  128 ≤ byte_of c →
  encodeURIComponent (String c s) = percent_escape c +:+ encodeURIComponent s.
Proof.
  intros Hc.
  change (encodeURIComponent (String c s))
    with ((if uri_unreserved c then String c EmptyString else percent_escape c)
          +:+ encodeURIComponent s).
  by rewrite high_reserved.
Qed.

Lemma decode_encoded_one c rest :
  byte_of c < 128 →
  decode_from [] 0
    ((if uri_unreserved c then String c EmptyString else percent_escape c) +:+ rest)
  = option_map (String c) (decode_from [] 0 rest).
Proof.
  intros Hc. destruct (uri_unreserved c) eqn:Hsafe.
  - change (String c EmptyString +:+ rest) with (String c rest).
    by apply decode_plain, low_unreserved_plain.
  - by rewrite decode_escape, low_leading_ones.
Qed.

Lemma leading_ones_two x : 194 ≤ x → x ≤ 223 → leading_ones x = 2%nat.
Proof.
  intros Hlow Hhigh. unfold leading_ones.
  repeat match goal with
         | |- context [?a <? ?b] => destruct (Z.ltb_spec a b); try lia
         end.
Qed.

Lemma leading_ones_three x : 224 ≤ x → x ≤ 239 → leading_ones x = 3%nat.
Proof.
  intros Hlow Hhigh. unfold leading_ones.
  repeat match goal with
         | |- context [?a <? ?b] => destruct (Z.ltb_spec a b); try lia
         end.
Qed.

Lemma leading_ones_four x : 240 ≤ x → x ≤ 244 → leading_ones x = 4%nat.
Proof.
  intros Hlow Hhigh. unfold leading_ones.
  repeat match goal with
         | |- context [?a <? ?b] => destruct (Z.ltb_spec a b); try lia
         end.
Qed.

Lemma is_cont_high x : is_cont x = true → 128 ≤ x.
Proof. unfold is_cont. intros Hx. apply andb_true_iff in Hx as [Hx _]. by apply Z.leb_le. Qed.

Lemma decode_encode s :
  well_formed s → decodeURIComponent (encodeURIComponent s) = Some s.
Proof.
  unfold decodeURIComponent.
  induction 1 as [|a s Ha Hs IH|a b s Hab Hs IH|a b c s Habc Hs IH|a b c d s Habcd Hs IH].
  - reflexivity.
  - change (encodeURIComponent (String a s))
      with ((if uri_unreserved a then String a EmptyString else percent_escape a)
            +:+ encodeURIComponent s).
    by rewrite decode_encoded_one, IH.
  - assert (Hparts := Hab). simpl in Hparts.
    rewrite !andb_true_iff, !Z.leb_le in Hparts. destruct Hparts as [[Ha1 Ha2] Hb].
    apply is_cont_high in Hb.
    rewrite (encode_high a) by lia. rewrite (encode_high b) by lia.
    rewrite decode_escape, (leading_ones_two _ Ha1 Ha2).
    rewrite decode_continuation.
    change ([byte_of a] ++ [byte_of b]) with [byte_of a; byte_of b].
    rewrite Hab, IH. simpl. by rewrite !char_of_byte_of.
  - assert (Hparts := Habc). simpl in Hparts.
    rewrite !andb_true_iff, !Z.leb_le in Hparts.
    destruct Hparts as [[[[[Ha1 Ha2] Hb] Hc] _] _].
    apply is_cont_high in Hb. apply is_cont_high in Hc.
    rewrite (encode_high a) by lia. rewrite (encode_high b) by lia.
    rewrite (encode_high c) by lia.
    rewrite decode_escape, (leading_ones_three _ Ha1 Ha2).
    rewrite !decode_continuation.
    change (([byte_of a] ++ [byte_of b]) ++ [byte_of c])
      with [byte_of a; byte_of b; byte_of c].
    rewrite Habc, IH. simpl. by rewrite !char_of_byte_of.
  - assert (Hparts := Habcd). simpl in Hparts.
    rewrite !andb_true_iff, !Z.leb_le in Hparts.
    destruct Hparts as [[[[[[Ha1 Ha2] Hb] Hc] Hd] _] _].
    apply is_cont_high in Hb. apply is_cont_high in Hc. apply is_cont_high in Hd.
    rewrite (encode_high a) by lia. rewrite (encode_high b) by lia.
    rewrite (encode_high c) by lia. rewrite (encode_high d) by lia.
    rewrite decode_escape, (leading_ones_four _ Ha1 Ha2).
    rewrite !decode_continuation.
    change ((([byte_of a] ++ [byte_of b]) ++ [byte_of c]) ++ [byte_of d])
      with [byte_of a; byte_of b; byte_of c; byte_of d].
    rewrite Habcd, IH. simpl. by rewrite !char_of_byte_of.
Qed.

Lemma safe_excludes s c :
  query_safe c = false → c ∉ chars (encodeURIComponent s).
Proof. intros Hc Hin. apply encoded_chars in Hin. congruence. Qed.


(** X13.  A configuration request without parameters is answered like
    any other: with status 200, a [pmtilesUrl] for the path that is the
    text [undefined] glued to the files prefix, and no [sourceLayer] key
    (or with a 304 without body, when it is conditional and express
    finds it fresh against that object); nothing is validated and
    nothing is asked of the network. *)
Theorem config_endpoint_without_parameters cfg env w req :
  query_filePath req = JsUndefined →
  query_sourceLayer req = JsUndefined →
  let w' := after (api_config cfg req) env w in
  let config :=
    JObject [("pmtilesUrl",
              JStr ("/proxy/pmtiles?url=https%3A%2F%2F"
                    +:+ encodeURIComponent (template (DATABRICKS_HOST cfg))
                    +:+ "%2Fapi%2F2.0%2Ffs%2Ffilesundefined"));
             ("baseMapUrl", JStr "https://tile.openstreetmap.org/{z}/{x}/{y}.png");
             ("zoom", JNumber 7)] in
  (if conditional req && freshness env req config
   then statusCode (res w') = 304 ∧ payload (res w') = NoPayload
   else statusCode (res w') = 200 ∧ payload (res w') = JsonPayload config)
  ∧ upstream_exchanges (trace w') = upstream_exchanges (trace w)
  ∧ posts (trace w') = posts (trace w)
  ∧ token_state w' = token_state w.
Proof.
  intros Hpath Hlayer w' config.
  destruct (config_outcome_quiet cfg env w req) as (Hnone & Hposts & _ & Hstate).
  fold w' in Hnone, Hposts, Hstate.
  split; [|done].
  unfold w'. rewrite config_outcome. unfold revalidated.
  replace (config_object cfg req) with config.
  - by destruct (conditional req && freshness env req config).
  - unfold config, config_object, proxyUrl_of, ucUrl_of. rewrite Hpath, Hlayer.
    change ("https://" +:+ template (DATABRICKS_HOST cfg) +:+ "/api/2.0/fs/files"
            +:+ template JsUndefined)
      with (String.append "https://"
              (String.append (template (DATABRICKS_HOST cfg)) "/api/2.0/fs/filesundefined")).
    by rewrite !encodeURIComponent_app.
Qed.

Lemma config_endpoint_without_parameters_witness :
  payload (res (after (api_config demo_cfg bare_config_request) serving_env initial))
  = JsonPayload
      (JObject [("pmtilesUrl",
                 JStr "/proxy/pmtiles?url=https%3A%2F%2Fadb.example.net%2Fapi%2F2.0%2Ffs%2Ffilesundefined");
                ("baseMapUrl", JStr "https://tile.openstreetmap.org/{z}/{x}/{y}.png");
                ("zoom", JNumber 7)]).
Proof.
  destruct (config_endpoint_without_parameters demo_cfg serving_env initial
              bare_config_request eq_refl eq_refl) as ((_ & Hpayload) & _).
  rewrite Hpayload. reflexivity.
Defined.

(** *** From the configuration to the upstream request *)

Lemma split_first_at sep a b :
  sep ∉ chars a → split_first sep (a +:+ String sep b) = (a, Some b).
Proof.
  induction a as [|x a IH]; intros Hsep.
  - change (EmptyString +:+ String sep b) with (String sep b). simpl.
    by rewrite Ascii.eqb_refl.
  - change (String x a +:+ String sep b) with (String x (a +:+ String sep b)).
    change (chars (String x a)) with (x :: chars a) in Hsep.
    apply not_elem_of_cons in Hsep as [Hx Ha]. simpl.
    destruct (Ascii.eqb_spec x sep) as [->|_]; [done|]. by rewrite IH.
Qed.

Lemma split_all_whole sep s : sep ∉ chars s → split_all sep s = [s].
Proof.
  induction s as [|x s IH]; intros Hsep; [done|].
  change (chars (String x s)) with (x :: chars s) in Hsep.
  apply not_elem_of_cons in Hsep as [Hx Hs]. simpl.
  destruct (Ascii.eqb_spec x sep) as [->|_]; [done|]. by rewrite IH.
Qed.

Lemma plus_to_space_plain s : "+"%char ∉ chars s → plus_to_space s = s.
Proof.
  induction s as [|x s IH]; intros Hplus; [done|].
  change (chars (String x s)) with (x :: chars s) in Hplus.
  apply not_elem_of_cons in Hplus as [Hx Hs]. simpl.
  destruct (Ascii.eqb_spec x "+") as [->|_]; [done|]. by rewrite IH.
Qed.

(** The [url] parameter of the link that the configuration endpoint
    builds, read as a query is read, is the upstream URL. *)
Lemma proxyUrl_parameter u :
  well_formed u → query_parameter "url" (proxyUrl_of u) = Some u.
Proof.
  intros Hu. unfold query_parameter.
  change (proxyUrl_of u)
    with ("/proxy/pmtiles" +:+ String "?" ("url=" +:+ encodeURIComponent u)).
  rewrite split_first_at
    by (vm_compute; intros Hin;
        repeat (apply elem_of_cons in Hin as [Hin|Hin]; [discriminate Hin|]);
        by apply elem_of_nil in Hin).
  rewrite split_all_whole.
  - change ("url=" +:+ encodeURIComponent u)
      with ("url" +:+ String "=" (encodeURIComponent u)).
    cbn [fmap list_fmap]. unfold parameter_of.
    rewrite split_first_at
      by (vm_compute; intros Hin;
          repeat (apply elem_of_cons in Hin as [Hin|Hin]; [discriminate Hin|]);
          by apply elem_of_nil in Hin).
    change (decode_component "url") with "url".
    unfold decode_component, default, decoded_url.
    rewrite plus_to_space_plain by (by apply safe_excludes).
    unfold id. rewrite (decode_encode u Hu). reflexivity.
  - rewrite chars_app. intros Hin. apply elem_of_app in Hin as [Hin|Hin].
    + vm_compute in Hin.
      repeat (apply elem_of_cons in Hin as [Hin|Hin]; [discriminate Hin|]).
      by apply elem_of_nil in Hin.
    + by apply safe_excludes in Hin.
Qed.

(** The one upstream GET of a byte-range request goes to the [url]
    parameter as lines 86-92 leave it. *)
Lemma proxy_target_exchanges cfg env w req url :
  query_url req = JsString url →
  url ≠ EmptyString →
  isTileJsonRequest req = false →
  upstream_exchanges (trace (after (proxy_pmtiles cfg req) env w))
  = upstream_exchanges (trace w)
    ++ [(decoded_url url, request_headers cfg env req w, upstream_outcome cfg env req w)].
Proof.
  intros Hquery Hurl Htile.
  assert (Htruthy : truthy (query_url req) = true)
    by (rewrite Hquery; by apply truthy_string).
  rewrite (proxy_byte_range_exchanges cfg env w req Htruthy Htile).
  unfold target_url. by rewrite Hquery.
Qed.

(** X14.  The link of the configuration endpoint leads the proxy to the
    upstream URL.  For every file path, the [url] parameter of the
    [pmtilesUrl] that the endpoint builds (line 210), read as express
    reads a query, is the upstream URL of line 205; a proxy request with
    that parameter that is not a probe makes its one upstream GET to
    what the decoding of lines 86-92 makes of it, which is the upstream
    URL itself when that URL holds no percent sign.  (With a percent
    escape in the path the second decoding changes the URL, as the
    example below shows.) *)
Theorem configured_url_reaches_upstream cfg env w req filePath :
  well_formed (ucUrl_of cfg filePath) →
  query_url req = JsString (ucUrl_of cfg filePath) →
  isTileJsonRequest req = false →
  query_parameter "url" (proxyUrl_of (ucUrl_of cfg filePath)) = Some (ucUrl_of cfg filePath)
  ∧ upstream_exchanges (trace (after (proxy_pmtiles cfg req) env w))
    = upstream_exchanges (trace w)
      ++ [(decoded_url (ucUrl_of cfg filePath),
           request_headers cfg env req w, upstream_outcome cfg env req w)]
  ∧ (percent_free (ucUrl_of cfg filePath) →
     decoded_url (ucUrl_of cfg filePath) = ucUrl_of cfg filePath).
Proof.
  intros Hwf Hquery Htile. split; [by apply proxyUrl_parameter|]. split.
  - by apply proxy_target_exchanges.
  - intros Hfree. unfold decoded_url. by rewrite decode_percent_free.
Qed.

Lemma configured_url_reaches_upstream_witness :
  upstream_exchanges
    (trace (after (proxy_pmtiles demo_cfg range_request) serving_env (started serving_env)))
  = [("https://adb.example.net/api/2.0/fs/files/Volumes/x/y/z.pmtiles",
      request_headers demo_cfg serving_env range_request (started serving_env),
      FetchResolved partial_content)].
Proof.
  destruct (configured_url_reaches_upstream demo_cfg serving_env (started serving_env)
              range_request (JsString "/Volumes/x/y/z.pmtiles")) as (_ & Hget & _).
  - vm_compute. repeat (apply well_formed_one; [reflexivity|]). apply well_formed_empty.
  - reflexivity.
  - reflexivity.
  - exact Hget.
Defined.

(** X15.  The proxy fetches the URL it was given whenever decoding has
    nothing to do or cannot be done: for a [url] parameter without
    percent sign, and for one that [decodeURIComponent] rejects, the one
    upstream GET of a byte-range request goes to that very string. *)
Theorem proxy_fetches_given_url cfg env w req url :
  query_url req = JsString url →
  url ≠ EmptyString →
  isTileJsonRequest req = false →
  percent_free url ∨ decodeURIComponent url = None →
  upstream_exchanges (trace (after (proxy_pmtiles cfg req) env w))
  = upstream_exchanges (trace w)
    ++ [(url, request_headers cfg env req w, upstream_outcome cfg env req w)].
Proof.
  intros Hquery Hurl Htile Hplain.
  rewrite (proxy_target_exchanges cfg env w req url Hquery Hurl Htile).
  replace (decoded_url url) with url; [done|].
  unfold decoded_url.
  destruct Hplain as [Hfree | ->]; [|done]. by rewrite decode_percent_free.
Qed.

Lemma proxy_fetches_given_url_witness :
  upstream_exchanges
    (trace (after (proxy_pmtiles demo_cfg range_request) serving_env (started serving_env)))
  = [("https://adb.example.net/api/2.0/fs/files/Volumes/x/y/z.pmtiles",
      request_headers demo_cfg serving_env range_request (started serving_env),
      FetchResolved partial_content)].
Proof.
  apply (proxy_fetches_given_url demo_cfg serving_env (started serving_env) range_request
           "https://adb.example.net/api/2.0/fs/files/Volumes/x/y/z.pmtiles");
    [reflexivity|discriminate|reflexivity|].
  left. unfold percent_free. vm_compute. intros Hin.
  repeat (apply elem_of_cons in Hin as [Hin|Hin]; [discriminate Hin|]).
  by apply elem_of_nil in Hin.
Defined.

(** A percent sign that starts an escape is decoded once more by the
    handler: the URL that is fetched is then not the one that was given.
    So a file whose path holds an escape comes back intact from the
    configuration link, and is then asked for under another name. *)
Example proxy_decodes_escapes_again :
  query_parameter "url" (proxyUrl_of "https://h/a%20b") = Some "https://h/a%20b"
  ∧ target_url (probe_request "https://h/a%20b") = "https://h/a b".
Proof. split; reflexivity. Qed.

(** A URL that [fetch] cannot parse goes to [fetch] as it came; the
    rejection ends in the 500 of lines 182-185. *)
Example unparsable_url_fails :
  target_url
    {| query_url := JsString "100%"; query_filePath := JsUndefined;
       query_sourceLayer := JsUndefined; headers_range := JsUndefined;
       headers_accept := JsUndefined; protocol := "http";
       host := JsString "localhost:3000"; headers_if_none_match := JsUndefined;
       headers_if_modified_since := JsUndefined;
       headers_cache_control := JsUndefined |} = "100%"
  ∧ statusCode
      (res (after (proxy_pmtiles demo_cfg
                     {| query_url := JsString "100%"; query_filePath := JsUndefined;
                        query_sourceLayer := JsUndefined; headers_range := JsUndefined;
                        headers_accept := JsUndefined; protocol := "http";
                        host := JsString "localhost:3000";
                        headers_if_none_match := JsUndefined;
                        headers_if_modified_since := JsUndefined;
                        headers_cache_control := JsUndefined |})
              unreachable_env (started unreachable_env))) = 500.
Proof. split; reflexivity. Qed.

(** X16.  The page script asks for the configuration at
    [/api/config?filePath=V1&sourceLayer=V2], where V1 and V2 are made of
    unreserved characters and percent escapes only (no [&] and no [=], so
    the two parameters cannot run into each other) and decode to the
    page's own [filePath] and [sourceLayer].  A parameter that the page
    URL lacks is sent as the text [null], never left out. *)
Theorem page_requests_configuration filePath sourceLayer :
  well_formed (template filePath) →
  well_formed (template sourceLayer) →
  let v1 := encodeURIComponent (template filePath) in
  let v2 := encodeURIComponent (template sourceLayer) in
  Frontend.apiUrl filePath sourceLayer
  = "/api/config?filePath=" +:+ v1 +:+ "&sourceLayer=" +:+ v2
  ∧ Forall (λ c, uri_unreserved c = true ∨ c = "%"%char) (chars v1 ++ chars v2)
  ∧ Forall (λ c, c ∉ chars v1 ++ chars v2) ["&"; "="]%char
  ∧ decodeURIComponent v1 = Some (template filePath)
  ∧ decodeURIComponent v2 = Some (template sourceLayer)
  ∧ (filePath = JsNull → v1 = "null")
  ∧ (sourceLayer = JsNull → v2 = "null").
Proof.
  intros Hpath Hlayer v1 v2.
  split; [reflexivity|]. split; [|split].
  - apply Forall_app. split; apply Forall_forall; intros c Hc;
      apply encoded_chars in Hc; unfold query_safe in Hc;
      apply orb_true_iff in Hc as [Hc|Hc]; [by left|right|by left|right];
      by apply Ascii.eqb_eq in Hc.
  - repeat (apply Forall_cons; split;
            [intros Hin; apply elem_of_app in Hin as [Hin|Hin];
             by apply safe_excludes in Hin|]).
    by apply Forall_nil.
  - split; [by apply decode_encode|]. split; [by apply decode_encode|].
    split; by intros ->.
Qed.

Lemma page_requests_configuration_witness :
  Frontend.apiUrl (JsString "/Volumes/x/y/z.pmtiles") JsNull
  = "/api/config?filePath=%2FVolumes%2Fx%2Fy%2Fz.pmtiles&sourceLayer=null".
Proof.
  destruct (page_requests_configuration (JsString "/Volumes/x/y/z.pmtiles") JsNull)
    as (Hurl & _ & _ & _ & _ & _ & Hnull).
  - vm_compute. repeat (apply well_formed_one; [reflexivity|]). apply well_formed_empty.
  - vm_compute. repeat (apply well_formed_one; [reflexivity|]). apply well_formed_empty.
  - rewrite Hurl, (Hnull eq_refl). reflexivity.
Defined.

(** ** Every request is answered *)




(** X18.  The preflight handler answers 200 with the three CORS headers
    whatever the state of the process and whatever its configuration: it
    reads nothing, logs nothing, asks nothing of the identity endpoint
    or of the remote store, and leaves the Token State alone. *)
Theorem options_preflight_is_unconditional env w :
  let w' := after options_pmtiles env w in
  statusCode (res w') = 200
  ∧ ended (res w') = true
  ∧ resHeaders (res w') !! "Access-Control-Allow-Origin" = Some "*"
  ∧ resHeaders (res w') !! "Access-Control-Allow-Methods" = Some "GET, HEAD, OPTIONS"
  ∧ resHeaders (res w') !! "Access-Control-Allow-Headers" = Some "Range, Authorization"
  ∧ trace w' = trace w
  ∧ token_state w' = token_state w.
Proof. repeat split; reflexivity. Qed.

(** ** The page script and the configuration endpoint *)

(** X19.  With the configuration as this server sends it, the map opens
    at zoom 7 whatever the tile archive says, and at the centre that the
    header of the archive gives: the object of the configuration endpoint
    has a truthy [zoom] and no [center], so the fall-back of line 53 is
    never used and the one of line 54 always is. *)
Theorem map_opens_at_server_zoom cfg env w req config :
  payload (res (after (api_config cfg req) env w)) = JsonPayload (JObject config) →
  (∀ maxZoom, Frontend.view_zoom config maxZoom = JNumber 7)
  ∧ (∀ (Coordinates : Type) (header_center : Coordinates),
       Frontend.view_center config header_center = inr header_center).
Proof.
  rewrite config_outcome. unfold with_events, with_res. cbn [res].
  destruct (revalidated env req (config_object cfg req)); [discriminate|].
  unfold json_response, config_object. cbn [payload].
  intros Hconfig. injection Hconfig as <-.
  destruct (query_sourceLayer req); split; reflexivity.
Qed.

Lemma map_opens_at_server_zoom_witness :
  Frontend.view_zoom
    [("pmtilesUrl",
      JStr "/proxy/pmtiles?url=https%3A%2F%2Fadb.example.net%2Fapi%2F2.0%2Ffs%2Ffiles%2FVolumes%2Fx%2Fy%2Fz.pmtiles");
     ("sourceLayer", JStr "layer1");
     ("baseMapUrl", JStr "https://tile.openstreetmap.org/{z}/{x}/{y}.png");
     ("zoom", JNumber 7)] 14
  = JNumber 7.
Proof.
  destruct (map_opens_at_server_zoom demo_cfg serving_env initial config_request
              [("pmtilesUrl",
                JStr "/proxy/pmtiles?url=https%3A%2F%2Fadb.example.net%2Fapi%2F2.0%2Ffs%2Ffiles%2FVolumes%2Fx%2Fy%2Fz.pmtiles");
               ("sourceLayer", JStr "layer1");
               ("baseMapUrl", JStr "https://tile.openstreetmap.org/{z}/{x}/{y}.png");
               ("zoom", JNumber 7)] eq_refl) as [Hzoom _].
  apply Hzoom.
Defined.

(** Without a [zoom] the map would open two levels above the deepest
    one of the archive. *)
Example zoom_falls_back_to_header :
  Frontend.view_zoom [("pmtilesUrl", JStr "/proxy/pmtiles?url=x")] 14 = JNumber 12.
Proof. reflexivity. Qed.
